(** * The scale-up decision of the GitHub runner lambda

    A shallow embedding of
    [modules/runners/lambdas/runners/src/scale-runners/scale-up.ts]:
    the function [scaleUp], which reacts to one queued check run, and its
    helper [allRunnersBusy].

    The program is a sequence of awaited calls to collaborators (the
    authentication helpers, the GitHub REST client, the EC2 inventory and
    the instance launcher).  It is embedded in a small monad that
      - reads the history of the calls made so far (the collaborators may
        answer according to it),
      - writes every call together with the answer it got,
      - stops at the first exception.
    The one call that is not awaited, that of [allRunnersBusy], is kept
    apart as a task: its own calls, and what its promise settles to. *)

From Stdlib Require Import ZArith List String Ascii Bool Lia DecimalString.
Import ListNotations.
Open Scope string_scope.
Open Scope list_scope.

(** String concatenation, as in a template literal. *)
Infix "+:+" := String.append (at level 60, right associativity).

(* ================================================================== *)
(** ** Data *)

(** [interface ActionRequestMessage] *)
Record ActionRequestMessage := {
  id : Z;
  eventType : string;
  repositoryName : string;
  repositoryOwner : string;
  installationId : Z
}.

(** [RunnerType], with the fields the table in [scaleUp] gives. *)
Record RunnerType := {
  instance_type : string;
  os : string;
  ami_filter : string;
  max_available : Z;
  min_available : Z;
  disk_size : Z;
  runnerTypeName : string
}.

(** An element of what [listRunners] returns; [scaleUp] reads only its
    [runnerType], which may be undefined. *)
Record RunnerInfo := {
  runnerType : option string
}.

(** An element of what [listGithubRunners] returns: the fields
    [allRunnersBusy] reads. *)
Record GhLabel := { name : string }.

Record GhRunner := {
  labels : list GhLabel;
  status : string;
  busy : bool
}.

(** The result of [createGithubAuth], of which [.token] is read. *)
Record GithubAuth := { token : string }.

(** An Octokit client, as an opaque handle. *)
Inductive Octokit := Client (handle : Z).

(** [process.env], as [scaleUp] reads it.  [enableOrgLevel] is the value of
    [yn(process.env.ENABLE_ORGANIZATION_RUNNERS, { default: true })]; the
    other variables are strings or undefined. *)
Record ProcessEnv := {
  enableOrgLevel : bool;
  RUNNER_EXTRA_LABELS : option string;
  RUNNER_GROUP_NAME : option string;
  ENVIRONMENT : option string;
  GHES_URL : option string
}.

(** An exception: the message of a thrown [Error], or the rejection of a
    collaborator's promise. *)
Inductive Error :=
| JsError (message : string)
| Rejected (reason : string).

(** The error [scaleUp] throws on an event that does not come from SQS. *)
Definition UnsupportedTransport : Error :=
  JsError "Cannot handle non-SQS events!".

Inductive Outcome (A : Type) :=
| Ok (a : A)
| Throw (e : Error).
Arguments Ok {A} a.
Arguments Throw {A} e.

(* ================================================================== *)
(** ** Calls to the collaborators *)

Inductive Call :=
| CreateGithubAuth (installation : option Z) (authType : string)
                   (ghesApiUrl : string)
| CreateOctoClient (tok : string) (ghesApiUrl : string)
| GetOrgInstallation (client : Octokit) (org : string)
| GetRepoInstallation (client : Octokit) (owner repo : string)
| ChecksGet (client : Octokit) (check_run_id : Z) (owner repo : string)
| ListRunners (environment : option string) (repoName : option string)
| CreateRegistrationTokenForOrg (client : Octokit) (org : string)
| CreateRegistrationTokenForRepo (client : Octokit) (owner repo : string)
| CreateRunner (environment : option string) (runnerConfig : string)
               (orgName repoName : option string) (rt : RunnerType)
| CreateGitHubClientForRunner (org repo : string) (orgLevel : bool)
| ListGithubRunners (client : Octokit) (org repo : string) (orgLevel : bool).

Inductive Response :=
| RAuth (a : GithubAuth)
| RClient (c : Octokit)
| RInstallation (data_id : Z)
| RCheckRun (data_status : string)
| RRunners (l : list RunnerInfo)
| RToken (data_token : string)
| RGhRunners (l : list GhRunner)
| RDone
| RError (e : Error).

(** One call and what it was answered. *)
Record Event := { call : Call; response : Response }.

(** The collaborators.  Each one sees the calls made before (and their
    answers) and either resolves to a value or rejects. *)
Record World := {
  on_createGithubAuth :
    list Event -> option Z -> string -> string -> Outcome GithubAuth;
  on_createOctoClient :
    list Event -> string -> string -> Outcome Octokit;
  on_getOrgInstallation :
    list Event -> Octokit -> string -> Outcome Z;
  on_getRepoInstallation :
    list Event -> Octokit -> string -> string -> Outcome Z;
  on_checksGet :
    list Event -> Octokit -> Z -> string -> string -> Outcome string;
  on_listRunners :
    list Event -> option string -> option string -> Outcome (list RunnerInfo);
  on_createRegistrationTokenForOrg :
    list Event -> Octokit -> string -> Outcome string;
  on_createRegistrationTokenForRepo :
    list Event -> Octokit -> string -> string -> Outcome string;
  on_createRunner :
    list Event -> option string -> string -> option string -> option string ->
    RunnerType -> Outcome unit;
  on_createGitHubClientForRunner :
    list Event -> string -> string -> bool -> Outcome Octokit;
  on_listGithubRunners :
    list Event -> Octokit -> string -> string -> bool ->
    Outcome (list GhRunner)
}.

(* ================================================================== *)
(** ** Effects *)

(** A call of [allRunnersBusy] whose promise is not awaited: the arguments,
    the calls it makes when it runs to its end, what it logs and what its
    promise settles to.  When these calls happen relative to those of
    [scaleUp] is left open. *)
Record Task := {
  task_runnerType : string;
  task_org : string;
  task_repo : string;
  task_orgLevel : bool;
  task_events : list Event;
  task_logs : list string;
  task_settled : Outcome bool
}.

(** What a computation leaves behind. *)
Record Effects := {
  events : list Event;
  tasks : list Task;
  logs : list string
}.

Definition no_effects : Effects :=
  {| events := []; tasks := []; logs := [] |}.

Definition effects_app (a b : Effects) : Effects :=
  {| events := events a ++ events b;
     tasks := tasks a ++ tasks b;
     logs := logs a ++ logs b |}.

(** A computation: from the history of the calls so far to an outcome and
    the effects of the computation itself. *)
Definition M (A : Type) : Type := list Event -> Outcome A * Effects.

Definition ret {A} (a : A) : M A := fun _ => (Ok a, no_effects).

Definition throw {A} (e : Error) : M A := fun _ => (Throw e, no_effects).

Definition bind {A B} (m : M A) (f : A -> M B) : M B := fun h =>
  let (r, e1) := m h in
  match r with
  | Ok a => let (r', e2) := f a (h ++ events e1) in (r', effects_app e1 e2)
  | Throw e => (Throw e, e1)
  end.

Notation "x <- m ;; k" := (bind m (fun x => k))
  (at level 100, m at next level, right associativity).
Notation "m ;;; k" := (bind m (fun _ => k))
  (at level 100, right associativity).

(** An awaited call: the answer is read off the collaborator and the call
    is written down with it. *)
Definition answered {A} (inj : A -> Response) (r : Outcome A) : Response :=
  match r with
  | Ok a => inj a
  | Throw e => RError e
  end.

Definition await {A} (c : Call) (answer : list Event -> Outcome A)
    (inj : A -> Response) : M A := fun h =>
  let r := answer h in
  (r, {| events := [ {| call := c; response := answered inj r |} ];
         tasks := []; logs := [] |}).

(** [console.info] *)
Definition console_info (message : string) : M unit := fun _ =>
  (Ok tt, {| events := []; tasks := []; logs := [message] |}).

(** [for (const k in dict) body]: the entries in insertion order, one after
    the other, until one throws. *)
Fixpoint forIn {K V} (dict : list (K * V)) (body : K -> V -> M unit) : M unit :=
  match dict with
  | [] => ret tt
  | (k, v) :: rest => body k v ;;; forIn rest body
  end.

(** A promise, as a value. *)
Inductive Promise := PromiseOf (t : Task).

(** ToBoolean of an object, which a promise is. *)
Definition ToBoolean (p : Promise) : bool := true.

(** The number [n] in a template literal. *)
Definition show (n : nat) : string := NilZero.string_of_uint (Nat.to_uint n).

(** Truthiness of a string that may be undefined. *)
Definition truthy (s : option string) : bool :=
  match s with
  | Some v => negb (v =? "")
  | None => false
  end.

(* ================================================================== *)
(** ** The program *)

(** [x.runnerType === runnerType], the left side possibly undefined. *)
Definition same_runnerType (x : RunnerInfo) (k : string) : bool :=
  match runnerType x with
  | Some v => v =? k
  | None => false
  end.

(** The table [runnerTypes] of [scaleUp], in the order of its keys. *)
Definition runnerTypes : list (string * RunnerType) :=
  [ ("linux.2xlarge",
     {| instance_type := "c5.2xlarge";
        os := "linux";
        ami_filter := "amzn2-ami-hvm-2.0*x86_64-ebs";
        max_available := 200;
        min_available := 10;
        disk_size := 100;
        runnerTypeName := "linux.2xlarge" |});
    ("linux.8xlarge.nvidia.gpu",
     {| instance_type := "g3.8xlarge";
        os := "linux";
        ami_filter := "amzn2-ami-hvm-2.0*x86_64-ebs";
        max_available := 50;
        min_available := 1;
        disk_size := 100;
        runnerTypeName := "linux.8xlarge.nvidia.gpu" |});
    ("win.2xlarge",
     {| instance_type := "c5.2xlarge";
        os := "windows";
        ami_filter := "Windows_Server-2019-English-Core*";
        max_available := 50;
        min_available := 10;
        disk_size := 100;
        runnerTypeName := "win.2xlarge" |});
    ("win.8xlarge.nvidia.gpu",
     {| instance_type := "g3.8xlarge";
        os := "windows";
        ami_filter := "Windows_Server-2019-English-Core*";
        max_available := 30;
        min_available := 10;
        disk_size := 100;
        runnerTypeName := "win.8xlarge.nvidia.gpu" |}) ].

(** [currentRunners.filter(x => x.runnerType === runnerType).length] *)
Definition currentRunnerCount (currentRunners : list RunnerInfo)
    (k : string) : Z :=
  Z.of_nat (List.length (filter (fun x => same_runnerType x k) currentRunners)).

(** The pieces of the runner configuration (lines 127-135). *)
Definition labelsArgument (runnerExtraLabels : option string)
    (k : string) : string :=
  match runnerExtraLabels with
  | Some extra => "--labels " +:+ k +:+ "," +:+ extra
  | None => "--labels " +:+ k
  end.

Definition runnerGroupArgument (runnerGroup : option string) : string :=
  match runnerGroup with
  | Some g => " --runnergroup " +:+ g
  | None => ""
  end.

Definition configBaseUrl (ghesBaseUrl : option string) : string :=
  match ghesBaseUrl with
  | Some u => if u =? "" then "https://github.com" else u
  | None => "https://github.com"
  end.

Definition runnerConfig (orgLevel : bool) (ghesBaseUrl : option string)
    (owner repo tok : string) (runnerExtraLabels runnerGroup : option string)
    (k : string) : string :=
  if orgLevel
  then "--url " +:+ configBaseUrl ghesBaseUrl +:+ "/" +:+ owner +:+
       " --token " +:+ tok +:+ " " +:+ labelsArgument runnerExtraLabels k +:+
       runnerGroupArgument runnerGroup
  else ("--url " +:+ configBaseUrl ghesBaseUrl +:+ "/" +:+ owner +:+ "/" +:+
        repo +:+ " ") +:+
       ("--token " +:+ tok +:+ " " +:+ labelsArgument runnerExtraLabels k).

(** [allRunnersBusy], the part after the runners are listed. *)
Definition runnersWithLabel (k : string) (ghRunners : list GhRunner)
    : list GhRunner :=
  filter (fun x => existsb (fun y => name y =? k) (labels x)
                   && negb (status x =? "offline")) ghRunners.

Definition busyCount (ghRunners : list GhRunner) : nat :=
  List.length (filter busy ghRunners).

Section Program.

Context (w : World) (env : ProcessEnv).

Definition createGithubAuth (installation : option Z) (authType url : string)
    : M GithubAuth :=
  await (CreateGithubAuth installation authType url)
        (fun h => on_createGithubAuth w h installation authType url) RAuth.

Definition createOctoClient (tok url : string) : M Octokit :=
  await (CreateOctoClient tok url)
        (fun h => on_createOctoClient w h tok url) RClient.

Definition getOrgInstallation (c : Octokit) (org : string) : M Z :=
  await (GetOrgInstallation c org)
        (fun h => on_getOrgInstallation w h c org) RInstallation.

Definition getRepoInstallation (c : Octokit) (owner repo : string) : M Z :=
  await (GetRepoInstallation c owner repo)
        (fun h => on_getRepoInstallation w h c owner repo) RInstallation.

Definition checks_get (c : Octokit) (check_run_id : Z) (owner repo : string)
    : M string :=
  await (ChecksGet c check_run_id owner repo)
        (fun h => on_checksGet w h c check_run_id owner repo) RCheckRun.

Definition listRunners (environment repoName : option string)
    : M (list RunnerInfo) :=
  await (ListRunners environment repoName)
        (fun h => on_listRunners w h environment repoName) RRunners.

Definition createRegistrationTokenForOrg (c : Octokit) (org : string)
    : M string :=
  await (CreateRegistrationTokenForOrg c org)
        (fun h => on_createRegistrationTokenForOrg w h c org) RToken.

Definition createRegistrationTokenForRepo (c : Octokit) (owner repo : string)
    : M string :=
  await (CreateRegistrationTokenForRepo c owner repo)
        (fun h => on_createRegistrationTokenForRepo w h c owner repo) RToken.

Definition createRunner (environment : option string) (config : string)
    (orgName repoName : option string) (rt : RunnerType) : M unit :=
  await (CreateRunner environment config orgName repoName rt)
        (fun h => on_createRunner w h environment config orgName repoName rt)
        (fun _ => RDone).

Definition createGitHubClientForRunner (org repo : string) (orgLevel : bool)
    : M Octokit :=
  await (CreateGitHubClientForRunner org repo orgLevel)
        (fun h => on_createGitHubClientForRunner w h org repo orgLevel)
        RClient.

Definition listGithubRunners (c : Octokit) (org repo : string)
    (orgLevel : bool) : M (list GhRunner) :=
  await (ListGithubRunners c org repo orgLevel)
        (fun h => on_listGithubRunners w h c org repo orgLevel) RGhRunners.

(** [async function allRunnersBusy] (lines 148-161). *)
Definition allRunnersBusy (k org repo : string) (orgLevel : bool) : M bool :=
  githubAppClient <- createGitHubClientForRunner org repo orgLevel ;;
  ghRunners <- listGithubRunners githubAppClient org repo orgLevel ;;
  let matching := runnersWithLabel k ghRunners in
  console_info ("Found " +:+ show (List.length matching) +:+
                " matching GitHub runners, " +:+ show (busyCount ghRunners) +:+
                " are busy") ;;;
  ret (forallb busy matching).

(** The call [allRunnersBusy(...)] without [await] (line 117): the caller
    gets the promise at once; what the function does is kept as a task. *)
Definition allRunnersBusy_promise (k org repo : string) (orgLevel : bool)
    : M Promise := fun h =>
  let (r, e) := allRunnersBusy k org repo orgLevel h in
  let t := {| task_runnerType := k;
              task_org := org;
              task_repo := repo;
              task_orgLevel := orgLevel;
              task_events := events e;
              task_logs := logs e;
              task_settled := r |} in
  (Ok (PromiseOf t), {| events := []; tasks := [t]; logs := [] |}).

(** The body of the loop over [runnerTypes] (lines 113-143), with the
    [repoName] and [orgName] of lines 57-58; [runnerTypes[runnerType]] is
    the entry [rt] of the key [k]. *)
Definition scaleUp_runnerType (payload : ActionRequestMessage)
    (githubInstallationClient : Octokit) (currentRunners : list RunnerInfo)
    (k : string) (rt : RunnerType) : M unit :=
  let runnerExtraLabels := RUNNER_EXTRA_LABELS env in
  let runnerGroup := RUNNER_GROUP_NAME env in
  let environment := ENVIRONMENT env in
  let ghesBaseUrl := GHES_URL env in
  let repoName :=
    if enableOrgLevel env then None
    else Some (repositoryOwner payload +:+ "/" +:+ repositoryName payload) in
  let orgName :=
    if enableOrgLevel env then Some (repositoryOwner payload) else None in
  if (currentRunnerCount currentRunners k <? max_available rt)%Z then
    p <- allRunnersBusy_promise k (repositoryOwner payload)
           (repositoryName payload) (enableOrgLevel env) ;;
    if ToBoolean p then
      registrationToken <-
        (if enableOrgLevel env
         then createRegistrationTokenForOrg githubInstallationClient
                (repositoryOwner payload)
         else createRegistrationTokenForRepo githubInstallationClient
                (repositoryOwner payload) (repositoryName payload)) ;;
      createRunner environment
        (runnerConfig (enableOrgLevel env) ghesBaseUrl
           (repositoryOwner payload) (repositoryName payload)
           registrationToken runnerExtraLabels runnerGroup k)
        orgName repoName rt
    else
      console_info
        "No runner will be created, maximum number of runners reached."
  else ret tt.

(** The block run when the check run is queued (lines 61-144), with the
    [repoName] of line 57. *)
Definition scaleUp_queued (payload : ActionRequestMessage)
    (githubInstallationClient : Octokit) : M unit :=
  let environment := ENVIRONMENT env in
  let repoName :=
    if enableOrgLevel env then None
    else Some (repositoryOwner payload +:+ "/" +:+ repositoryName payload) in
  currentRunners <- listRunners environment repoName ;;
  console_info
    ((if enableOrgLevel env
      then "Organization " +:+ repositoryOwner payload
      else "Repo " +:+ repositoryOwner payload +:+ "/" +:+
           repositoryName payload) +:+
     " has " +:+ show (List.length currentRunners) +:+ " runners") ;;;
  forIn runnerTypes
    (scaleUp_runnerType payload githubInstallationClient currentRunners).

(** [let ghesApiUrl] (lines 25-28). *)
Definition ghesApiUrl_of (ghesBaseUrl : option string) : string :=
  if truthy ghesBaseUrl
  then match ghesBaseUrl with
       | Some u => u +:+ "/api/v3"
       | None => ""
       end
  else "".

(** [scaleUp] (lines 17-146). *)
Definition scaleUp (eventSource : string) (payload : ActionRequestMessage)
    : M unit :=
  if negb (eventSource =? "aws:sqs") then throw UnsupportedTransport else
  let ghesApiUrl := ghesApiUrl_of (GHES_URL env) in
  resolved <-
    (if (installationId payload =? 0)%Z then
       ghAuth <- createGithubAuth None "app" ghesApiUrl ;;
       githubClient <- createOctoClient (token ghAuth) ghesApiUrl ;;
       if enableOrgLevel env
       then getOrgInstallation githubClient (repositoryOwner payload)
       else getRepoInstallation githubClient (repositoryOwner payload)
              (repositoryName payload)
     else ret (installationId payload)) ;;
  ghAuth <- createGithubAuth (Some resolved) "installation" ghesApiUrl ;;
  githubInstallationClient <- createOctoClient (token ghAuth) ghesApiUrl ;;
  checkRun <- checks_get githubInstallationClient (id payload)
                (repositoryOwner payload) (repositoryName payload) ;;
  if checkRun =? "queued"
  then scaleUp_queued payload githubInstallationClient
  else ret tt.

End Program.

(* ================================================================== *)
(** ** Collaborators that always answer *)

(** Collaborators as a test double would have them: every call resolves;
    the check run has status [checkStatus], the inventory lists [tracked],
    GitHub lists [live], and the n-th call of the invocation for a
    registration token yields a token that carries n. *)
Definition mock (checkStatus : string) (tracked : list RunnerInfo)
    (live : list GhRunner) : World :=
  {| on_createGithubAuth := fun _ installation _ _ =>
       Ok {| token := match installation with
                      | Some _ => "installation-token"
                      | None => "app-jwt"
                      end |};
     on_createOctoClient := fun _ tok _ =>
       Ok (Client (if tok =? "app-jwt" then 1 else 2));
     on_getOrgInstallation := fun _ _ _ => Ok 42%Z;
     on_getRepoInstallation := fun _ _ _ _ => Ok 43%Z;
     on_checksGet := fun _ _ _ _ _ => Ok checkStatus;
     on_listRunners := fun _ _ _ => Ok tracked;
     on_createRegistrationTokenForOrg := fun h _ _ =>
       Ok ("T" +:+ show (List.length h));
     on_createRegistrationTokenForRepo := fun h _ _ _ =>
       Ok ("T" +:+ show (List.length h));
     on_createRunner := fun _ _ _ _ _ _ => Ok tt;
     on_createGitHubClientForRunner := fun _ _ _ _ => Ok (Client 3);
     on_listGithubRunners := fun _ _ _ _ _ => Ok live |}.

Definition env_default : ProcessEnv :=
  {| enableOrgLevel := true;
     RUNNER_EXTRA_LABELS := None;
     RUNNER_GROUP_NAME := None;
     ENVIRONMENT := Some "prod";
     GHES_URL := None |}.

Definition acme_widgets (installation : Z) : ActionRequestMessage :=
  {| id := 7;
     eventType := "check_run";
     repositoryName := "widgets";
     repositoryOwner := "acme";
     installationId := installation |}.

Definition tracked_of (k : string) : RunnerInfo :=
  {| runnerType := Some k |}.

Definition live_runner (k : string) (isBusy : bool) : GhRunner :=
  {| labels := [ {| name := "self-hosted" |}; {| name := k |} ];
     status := "online";
     busy := isBusy |}.

(* ================================================================== *)
(** ** Vocabulary of the statements *)

(** The installation lookups (lines 36 and 41). *)
Definition is_lookup (c : Call) : bool :=
  match c with
  | GetOrgInstallation _ _ | GetRepoInstallation _ _ _ => true
  | _ => false
  end.

(** The calls made under the identity of the installation: the
    authentication as installation and the requests of the client. *)
Definition installation_scoped (c : Call) : bool :=
  match c with
  | CreateGithubAuth (Some _) _ _ => true
  | ChecksGet _ _ _ _ => true
  | CreateRegistrationTokenForOrg _ _ => true
  | CreateRegistrationTokenForRepo _ _ _ => true
  | _ => false
  end.

Definition is_token_call (c : Call) : bool :=
  match c with
  | CreateRegistrationTokenForOrg _ _ => true
  | CreateRegistrationTokenForRepo _ _ _ => true
  | _ => false
  end.

Definition is_create_runner (c : Call) : bool :=
  match c with
  | CreateRunner _ _ _ _ _ => true
  | _ => false
  end.

Definition is_live_list (c : Call) : bool :=
  match c with
  | CreateGitHubClientForRunner _ _ _ => true
  | ListGithubRunners _ _ _ _ => true
  | _ => false
  end.

Definition is_tracked_list (c : Call) : bool :=
  match c with
  | ListRunners _ _ => true
  | _ => false
  end.

(** Listing the fleet (tracked or live) and provisioning. *)
Definition fleet_or_provisioning (c : Call) : bool :=
  is_tracked_list c || is_live_list c || is_token_call c || is_create_runner c.

(** The create-runner calls for the runner type [rt]. *)
Definition creates (rt : RunnerType) (c : Call) : Prop :=
  exists environment config orgName repoName,
    c = CreateRunner environment config orgName repoName rt.

(** The runner types of the table below their ceiling. *)
Definition below_ceiling (currentRunners : list RunnerInfo)
    (entry : string * RunnerType) : bool :=
  (currentRunnerCount currentRunners (fst entry) <? max_available (snd entry))%Z.

(** The two calls of a provisioning, as lines 119-139 make them. *)
Definition tokenCall (env : ProcessEnv) (payload : ActionRequestMessage)
    (c : Octokit) : Call :=
  if enableOrgLevel env
  then CreateRegistrationTokenForOrg c (repositoryOwner payload)
  else CreateRegistrationTokenForRepo c (repositoryOwner payload)
         (repositoryName payload).

Definition createCall (env : ProcessEnv) (payload : ActionRequestMessage)
    (tok k : string) (rt : RunnerType) : Call :=
  CreateRunner (ENVIRONMENT env)
    (runnerConfig (enableOrgLevel env) (GHES_URL env)
       (repositoryOwner payload) (repositoryName payload) tok
       (RUNNER_EXTRA_LABELS env) (RUNNER_GROUP_NAME env) k)
    (if enableOrgLevel env then Some (repositoryOwner payload) else None)
    (if enableOrgLevel env then None
     else Some (repositoryOwner payload +:+ "/" +:+ repositoryName payload))
    rt.

(** The calls of one runner type in a run that completes: a registration
    token and a runner created with it when the type is below its ceiling,
    nothing otherwise. *)
Definition provisioned_once (env : ProcessEnv) (payload : ActionRequestMessage)
    (c : Octokit) (currentRunners : list RunnerInfo)
    (entry : string * RunnerType) (evs : list Event) : Prop :=
  if below_ceiling currentRunners entry
  then exists tok,
         evs = [ {| call := tokenCall env payload c;
                    response := RToken tok |};
                 {| call := createCall env payload tok (fst entry) (snd entry);
                    response := RDone |} ]
  else evs = [].

(** The lookup of the installation, as lines 34-45 make it. *)
Definition lookupCall (env : ProcessEnv) (payload : ActionRequestMessage)
    (c : Octokit) : Call :=
  if enableOrgLevel env
  then GetOrgInstallation c (repositoryOwner payload)
  else GetRepoInstallation c (repositoryOwner payload)
         (repositoryName payload).

(** Lines 30-46 of [scaleUp]: the installation id, looked up when the
    message has none. *)
Definition scaleUp_installation (w : World) (env : ProcessEnv)
    (payload : ActionRequestMessage) : M Z :=
  let ghesApiUrl := ghesApiUrl_of (GHES_URL env) in
  if (installationId payload =? 0)%Z then
    ghAuth <- createGithubAuth w None "app" ghesApiUrl ;;
    githubClient <- createOctoClient w (token ghAuth) ghesApiUrl ;;
    if enableOrgLevel env
    then getOrgInstallation w githubClient (repositoryOwner payload)
    else getRepoInstallation w githubClient (repositoryOwner payload)
           (repositoryName payload)
  else ret (installationId payload).

(** Lines 49-55 of [scaleUp]: the client of the installation and the status
    of the check run. *)
Definition scaleUp_client (w : World) (env : ProcessEnv)
    (payload : ActionRequestMessage) (resolved : Z) : M (Octokit * string) :=
  let ghesApiUrl := ghesApiUrl_of (GHES_URL env) in
  ghAuth <- createGithubAuth w (Some resolved) "installation" ghesApiUrl ;;
  githubInstallationClient <- createOctoClient w (token ghAuth) ghesApiUrl ;;
  checkRun <- checks_get w githubInstallationClient (id payload)
                (repositoryOwner payload) (repositoryName payload) ;;
  ret (githubInstallationClient, checkRun).

(** Lines 30-55 of [scaleUp], up to the check run. *)
Definition scaleUp_checkRun (w : World) (env : ProcessEnv)
    (payload : ActionRequestMessage) : M (Octokit * string) :=
  resolved <- scaleUp_installation w env payload ;;
  scaleUp_client w env payload resolved.

(** The events of these lines. *)
Definition appAuthEvent (env : ProcessEnv) (a : Response) : Event :=
  {| call := CreateGithubAuth None "app" (ghesApiUrl_of (GHES_URL env));
     response := a |}.

Definition clientEvent (env : ProcessEnv) (tok : string) (a : Response)
    : Event :=
  {| call := CreateOctoClient tok (ghesApiUrl_of (GHES_URL env));
     response := a |}.

Definition lookupEvent (env : ProcessEnv) (payload : ActionRequestMessage)
    (c : Octokit) (a : Response) : Event :=
  {| call := lookupCall env payload c; response := a |}.

Definition installationAuthEvent (env : ProcessEnv) (resolved : Z)
    (a : Response) : Event :=
  {| call := CreateGithubAuth (Some resolved) "installation"
               (ghesApiUrl_of (GHES_URL env));
     response := a |}.

Definition checkRunEvent (payload : ActionRequestMessage) (c : Octokit)
    (a : Response) : Event :=
  {| call := ChecksGet c (id payload) (repositoryOwner payload)
               (repositoryName payload);
     response := a |}.

(* ================================================================== *)
(** ** Reading a runner configuration back *)

(** Whether the character [c] occurs in [s]. *)
Fixpoint has_char (c : ascii) (s : string) : bool :=
  match s with
  | EmptyString => false
  | String a rest => Ascii.eqb a c || has_char c rest
  end.

(** The pieces of [s] between the occurrences of [sep]. *)
Fixpoint split_on (sep : ascii) (s : string) : list string :=
  match s with
  | EmptyString => [""]
  | String a rest =>
      if Ascii.eqb a sep then "" :: split_on sep rest
      else match split_on sep rest with
           | piece :: pieces => String a piece :: pieces
           | [] => [String a ""]
           end
  end.

(** [s] cut at its first occurrence of [sep], when there is one. *)
Fixpoint cut_at (sep : ascii) (s : string) : string * option string :=
  match s with
  | EmptyString => ("", None)
  | String a rest =>
      if Ascii.eqb a sep then ("", Some rest)
      else let (before, after) := cut_at sep rest in (String a before, after)
  end.

(** What is read back: the label of the runner type, the extra labels and
    the runner group. *)
Record ParsedConfig := {
  parsed_label : string;
  parsed_extraLabels : option string;
  parsed_runnerGroup : option string
}.

(** The label list of [labelsArgument]. *)
Definition labelList (runnerExtraLabels : option string) (k : string)
    : string :=
  match runnerExtraLabels with
  | Some extra => k +:+ "," +:+ extra
  | None => k
  end.

Definition parsed_of (labelWord : string) (group : option string)
    : ParsedConfig :=
  let (k, extra) := cut_at "," labelWord in
  {| parsed_label := k;
     parsed_extraLabels := extra;
     parsed_runnerGroup := group |}.

(** Modelled from the spec: the parsing back of a composed runner
    configuration string, which the repository does not have (the string
    goes to the runner's configuration script as its command line).  The
    string is read as words separated by single spaces, as an unquoted
    command line is; its last words are either [--labels L], or
    [--labels L --runnergroup G]; the first label of [L] is the runner
    type, what follows its comma are the extra labels. *)
Definition parse_runnerConfig (config : string) : option ParsedConfig :=
  match rev (split_on " " config) with
  | last :: option :: before =>
      if option =? "--labels" then Some (parsed_of last None)
      else if option =? "--runnergroup" then
        match before with
        | labelWord :: option' :: _ =>
            if option' =? "--labels"
            then Some (parsed_of labelWord (Some last))
            else None
        | _ => None
        end
      else None
  | _ => None
  end.

(* ================================================================== *)
(** ** Sample invocations *)

(** The scenario of the specification: five tracked [linux.2xlarge]
    runners and three live ones, the last of them busy or not. *)
Definition five_tracked : list RunnerInfo :=
  repeat (tracked_of "linux.2xlarge") 5.

Definition three_live (lastBusy : bool) : list GhRunner :=
  [ live_runner "linux.2xlarge" true;
    live_runner "linux.2xlarge" true;
    live_runner "linux.2xlarge" lastBusy ].

Definition run_scenario (lastBusy : bool) : Outcome unit * Effects :=
  scaleUp (mock "queued" five_tracked (three_live lastBusy)) env_default
    "aws:sqs" (acme_widgets 0) [].

(** Two hundred tracked [linux.2xlarge] runners, the ceiling of this runner
    type. *)
Definition two_hundred_tracked : list RunnerInfo :=
  repeat (tracked_of "linux.2xlarge") 200.

Definition run_at_ceiling : Outcome unit * Effects :=
  scaleUp (mock "queued" two_hundred_tracked (three_live true)) env_default
    "aws:sqs" (acme_widgets 0) [].

(* ================================================================== *)
(** ** Vocabulary of the further properties *)

(** A call that was answered, not rejected. *)
Definition answered_ok (ev : Event) : Prop :=
  forall err, response ev <> RError err.

(** An outcome that tells what the calls got: a run that returns had every
    call answered; a run that throws [err] had every call answered but the
    last, which was rejected with [err]. *)
Definition surfaced {A} (r : Outcome A) (evs : list Event) : Prop :=
  match r with
  | Ok _ => Forall answered_ok evs
  | Throw err =>
      exists before c,
        evs = before ++ [ {| call := c; response := RError err |} ] /\
        Forall answered_ok before
  end.

(** The runner types of the create-runner calls, in their order. *)
Definition created (evs : list Event) : list RunnerType :=
  flat_map (fun ev => match call ev with
                      | CreateRunner _ _ _ _ rt => [rt]
                      | _ => []
                      end) evs.

(** [repoName] and [orgName] of lines 57-58. *)
Definition repoName_of (env : ProcessEnv) (payload : ActionRequestMessage)
    : option string :=
  if enableOrgLevel env then None
  else Some (repositoryOwner payload +:+ "/" +:+ repositoryName payload).

Definition orgName_of (env : ProcessEnv) (payload : ActionRequestMessage)
    : option string :=
  if enableOrgLevel env then Some (repositoryOwner payload) else None.

(** A call that keeps to the scope of the invocation: the organization of
    the message at organization level, its repository otherwise. *)
Definition scope_kept (env : ProcessEnv) (payload : ActionRequestMessage)
    (c : Call) : Prop :=
  match c with
  | GetOrgInstallation _ org =>
      enableOrgLevel env = true /\ org = repositoryOwner payload
  | GetRepoInstallation _ owner repo =>
      enableOrgLevel env = false /\ owner = repositoryOwner payload /\
      repo = repositoryName payload
  | CreateRegistrationTokenForOrg _ org =>
      enableOrgLevel env = true /\ org = repositoryOwner payload
  | CreateRegistrationTokenForRepo _ owner repo =>
      enableOrgLevel env = false /\ owner = repositoryOwner payload /\
      repo = repositoryName payload
  | ListRunners _ repoName => repoName = repoName_of env payload
  | CreateRunner _ _ orgName repoName _ =>
      orgName = orgName_of env payload /\ repoName = repoName_of env payload
  | CreateGitHubClientForRunner org repo orgLevel =>
      org = repositoryOwner payload /\ repo = repositoryName payload /\
      orgLevel = enableOrgLevel env
  | ListGithubRunners _ org repo orgLevel =>
      org = repositoryOwner payload /\ repo = repositoryName payload /\
      orgLevel = enableOrgLevel env
  | _ => True
  end.

(** A call that is addressed as the environment and the message say: the
    API of [GHES_URL], the check run of the message, the [ENVIRONMENT]. *)
Definition addressed (env : ProcessEnv) (payload : ActionRequestMessage)
    (c : Call) : Prop :=
  match c with
  | CreateGithubAuth _ authType url =>
      url = ghesApiUrl_of (GHES_URL env) /\
      (authType = "app" \/ authType = "installation")
  | CreateOctoClient _ url => url = ghesApiUrl_of (GHES_URL env)
  | ChecksGet _ check_run_id owner repo =>
      check_run_id = id payload /\ owner = repositoryOwner payload /\
      repo = repositoryName payload
  | ListRunners environment _ => environment = ENVIRONMENT env
  | CreateRunner environment _ _ _ _ => environment = ENVIRONMENT env
  | _ => True
  end.

(** The line [scaleUp] logs once the inventory has answered (lines 65-70). *)
Definition runners_line (env : ProcessEnv) (payload : ActionRequestMessage)
    (currentRunners : list RunnerInfo) : string :=
  (if enableOrgLevel env
   then "Organization " +:+ repositoryOwner payload
   else "Repo " +:+ repositoryOwner payload +:+ "/" +:+
        repositoryName payload) +:+
  " has " +:+ show (List.length currentRunners) +:+ " runners".

(** The line of the branch [else] of the admission test (line 141). *)
Definition ceiling_line : string :=
  "No runner will be created, maximum number of runners reached.".

(** The line [allRunnersBusy] logs (line 158). *)
Definition found_line (k : string) (ghRunners : list GhRunner) : string :=
  "Found " +:+ show (List.length (runnersWithLabel k ghRunners)) +:+
  " matching GitHub runners, " +:+ show (busyCount ghRunners) +:+
  " are busy".

(** A live runner that carries the label [k]. *)
Definition has_label (k : string) (x : GhRunner) : Prop :=
  exists y, In y (labels x) /\ name y = k.

(** The task of the admission check of the runner type [k]: the arguments
    of line 117 and what [allRunnersBusy] does on them. *)
Definition admission_task (w : World) (env : ProcessEnv)
    (payload : ActionRequestMessage) (k : string) (t : Task) : Prop :=
  task_runnerType t = k /\
  task_org t = repositoryOwner payload /\
  task_repo t = repositoryName payload /\
  task_orgLevel t = enableOrgLevel env /\
  exists h,
    allRunnersBusy w k (repositoryOwner payload) (repositoryName payload)
      (enableOrgLevel env) h =
    (task_settled t,
     {| events := task_events t; tasks := []; logs := task_logs t |}).

(** The turns of the loop over a table, whatever its outcome: the calls of
    each turn that was begun, and the tasks.  A runner type at its ceiling
    is passed over; below it, the registration token is asked for and, when
    it comes, the runner is created; a rejected call ends the loop. *)
Inductive turns (w : World) (env : ProcessEnv) (payload : ActionRequestMessage)
    (c : Octokit) (currentRunners : list RunnerInfo)
  : list (string * RunnerType) -> Outcome unit -> list (list Event) ->
    list Task -> Prop :=
| turns_done :
    turns w env payload c currentRunners [] (Ok tt) [] []
| turns_skip k rt rest r per ts :
    below_ceiling currentRunners (k, rt) = false ->
    turns w env payload c currentRunners rest r per ts ->
    turns w env payload c currentRunners ((k, rt) :: rest) r ([] :: per) ts
| turns_token_rejected k rt rest err t :
    below_ceiling currentRunners (k, rt) = true ->
    admission_task w env payload k t ->
    turns w env payload c currentRunners ((k, rt) :: rest) (Throw err)
      [ [ {| call := tokenCall env payload c; response := RError err |} ] ]
      [t]
| turns_create_rejected k rt rest tok err t :
    below_ceiling currentRunners (k, rt) = true ->
    admission_task w env payload k t ->
    turns w env payload c currentRunners ((k, rt) :: rest) (Throw err)
      [ [ {| call := tokenCall env payload c; response := RToken tok |};
          {| call := createCall env payload tok k rt;
             response := RError err |} ] ]
      [t]
| turns_provisioned k rt rest tok t r per ts :
    below_ceiling currentRunners (k, rt) = true ->
    admission_task w env payload k t ->
    turns w env payload c currentRunners rest r per ts ->
    turns w env payload c currentRunners ((k, rt) :: rest) r
      ([ {| call := tokenCall env payload c; response := RToken tok |};
         {| call := createCall env payload tok k rt; response := RDone |} ]
       :: per)
      (t :: ts).

(** Collaborators that differ at most in what the admission checks ask:
    the client of [allRunnersBusy] and the list of the live runners. *)
Definition same_but_live (w1 w2 : World) : Prop :=
  on_createGithubAuth w1 = on_createGithubAuth w2 /\
  on_createOctoClient w1 = on_createOctoClient w2 /\
  on_getOrgInstallation w1 = on_getOrgInstallation w2 /\
  on_getRepoInstallation w1 = on_getRepoInstallation w2 /\
  on_checksGet w1 = on_checksGet w2 /\
  on_listRunners w1 = on_listRunners w2 /\
  on_createRegistrationTokenForOrg w1 = on_createRegistrationTokenForOrg w2 /\
  on_createRegistrationTokenForRepo w1 = on_createRegistrationTokenForRepo w2 /\
  on_createRunner w1 = on_createRunner w2.

(** Collaborators of which one rejects: the registration token is refused
    from the [n]-th call of the invocation on. *)
Definition mock_refusing (n : nat) (tracked : list RunnerInfo)
    (live : list GhRunner) : World :=
  {| on_createGithubAuth := on_createGithubAuth (mock "queued" tracked live);
     on_createOctoClient := on_createOctoClient (mock "queued" tracked live);
     on_getOrgInstallation :=
       on_getOrgInstallation (mock "queued" tracked live);
     on_getRepoInstallation :=
       on_getRepoInstallation (mock "queued" tracked live);
     on_checksGet := on_checksGet (mock "queued" tracked live);
     on_listRunners := on_listRunners (mock "queued" tracked live);
     on_createRegistrationTokenForOrg := fun h c org =>
       if Nat.leb n (List.length h) then Throw (Rejected "403")
       else on_createRegistrationTokenForOrg (mock "queued" tracked live)
              h c org;
     on_createRegistrationTokenForRepo := fun h c owner repo =>
       if Nat.leb n (List.length h) then Throw (Rejected "403")
       else on_createRegistrationTokenForRepo (mock "queued" tracked live)
              h c owner repo;
     on_createRunner := on_createRunner (mock "queued" tracked live);
     on_createGitHubClientForRunner :=
       on_createGitHubClientForRunner (mock "queued" tracked live);
     on_listGithubRunners :=
       on_listGithubRunners (mock "queued" tracked live) |}.

(** The list of the inventory (lines 61-64). *)
Definition listRunnersEvent (env : ProcessEnv)
    (payload : ActionRequestMessage) (a : Response) : Event :=
  {| call := ListRunners (ENVIRONMENT env) (repoName_of env payload);
     response := a |}.

(** The calls of lines 30-46, as far as they get: none when the message
    has an installation id; otherwise the authentication as app, the client
    and the lookup. *)
Inductive lookup_phase (env : ProcessEnv) (payload : ActionRequestMessage)
  : Outcome Z -> list Event -> Prop :=
| lookup_none :
    installationId payload <> 0%Z ->
    lookup_phase env payload (Ok (installationId payload)) []
| lookup_auth_rejected err :
    installationId payload = 0%Z ->
    lookup_phase env payload (Throw err) [appAuthEvent env (RError err)]
| lookup_client_rejected a err :
    installationId payload = 0%Z ->
    lookup_phase env payload (Throw err)
      [appAuthEvent env (RAuth a); clientEvent env (token a) (RError err)]
| lookup_rejected a c err :
    installationId payload = 0%Z ->
    lookup_phase env payload (Throw err)
      [appAuthEvent env (RAuth a); clientEvent env (token a) (RClient c);
       lookupEvent env payload c (RError err)]
| lookup_answered a c resolved :
    installationId payload = 0%Z ->
    lookup_phase env payload (Ok resolved)
      [appAuthEvent env (RAuth a); clientEvent env (token a) (RClient c);
       lookupEvent env payload c (RInstallation resolved)].

(** The calls of lines 49-55, as far as they get. *)
Inductive client_phase (env : ProcessEnv) (payload : ActionRequestMessage)
    (resolved : Z) : Outcome (Octokit * string) -> list Event -> Prop :=
| client_auth_rejected err :
    client_phase env payload resolved (Throw err)
      [installationAuthEvent env resolved (RError err)]
| client_rejected a err :
    client_phase env payload resolved (Throw err)
      [installationAuthEvent env resolved (RAuth a);
       clientEvent env (token a) (RError err)]
| client_check_rejected a c err :
    client_phase env payload resolved (Throw err)
      [installationAuthEvent env resolved (RAuth a);
       clientEvent env (token a) (RClient c);
       checkRunEvent payload c (RError err)]
| client_checked a c s :
    client_phase env payload resolved (Ok (c, s))
      [installationAuthEvent env resolved (RAuth a);
       clientEvent env (token a) (RClient c);
       checkRunEvent payload c (RCheckRun s)].

(** What an invocation on an event from SQS can be: its outcome, its calls,
    its tasks and its log, path by path. *)
Inductive invocation (w : World) (env : ProcessEnv)
    (payload : ActionRequestMessage)
  : Outcome unit -> list Event -> list Task -> list string -> Prop :=
| invocation_no_installation err li :
    lookup_phase env payload (Throw err) li ->
    invocation w env payload (Throw err) li [] []
| invocation_no_check_run resolved li err lc :
    lookup_phase env payload (Ok resolved) li ->
    client_phase env payload resolved (Throw err) lc ->
    invocation w env payload (Throw err) (li ++ lc) [] []
| invocation_not_queued resolved li c s lc :
    lookup_phase env payload (Ok resolved) li ->
    client_phase env payload resolved (Ok (c, s)) lc ->
    s <> "queued" ->
    invocation w env payload (Ok tt) (li ++ lc) [] []
| invocation_no_inventory resolved li c lc err :
    lookup_phase env payload (Ok resolved) li ->
    client_phase env payload resolved (Ok (c, "queued")) lc ->
    invocation w env payload (Throw err)
      (li ++ lc ++ [listRunnersEvent env payload (RError err)]) [] []
| invocation_loop resolved li c lc currentRunners r per ts :
    lookup_phase env payload (Ok resolved) li ->
    client_phase env payload resolved (Ok (c, "queued")) lc ->
    turns w env payload c currentRunners runnerTypes r per ts ->
    invocation w env payload r
      (li ++ lc ++
       listRunnersEvent env payload (RRunners currentRunners)
       :: List.concat per)
      ts [runners_line env payload currentRunners].

(** Two runs that agree on all but the tasks: the outcome, the calls with
    their answers, the log, and the runner types the tasks are for. *)
Definition same_main {A} (x y : Outcome A * Effects) : Prop :=
  fst x = fst y /\
  events (snd x) = events (snd y) /\
  logs (snd x) = logs (snd y) /\
  map task_runnerType (tasks (snd x)) = map task_runnerType (tasks (snd y)).

(** Two runs that agree on all but the tasks, with results related by
    [R]. *)
Definition alike {A} (R : A -> A -> Prop) (x y : Outcome A * Effects)
    : Prop :=
  match fst x, fst y with
  | Ok a, Ok b => R a b
  | Throw e1, Throw e2 => e1 = e2
  | _, _ => False
  end /\
  events (snd x) = events (snd y) /\
  logs (snd x) = logs (snd y) /\
  map task_runnerType (tasks (snd x)) = map task_runnerType (tasks (snd y)).

(* ================================================================== *)
(** ** The monad *)

Lemma effects_app_nil_r (e : Effects) : effects_app e no_effects = e.
Proof.
  destruct e; unfold effects_app; simpl. now rewrite !app_nil_r.
Qed.

Lemma effects_app_assoc (a b c : Effects) :
  effects_app a (effects_app b c) = effects_app (effects_app a b) c.
Proof.
  unfold effects_app; simpl. now rewrite !app_assoc.
Qed.

Lemma bind_inv {A B} (m : M A) (f : A -> M B) h r e :
  bind m f h = (r, e) ->
  (exists err, m h = (Throw err, e) /\ r = Throw err) \/
  (exists a e1 e2, m h = (Ok a, e1) /\ f a (h ++ events e1) = (r, e2) /\
                   e = effects_app e1 e2).
Proof.
  unfold bind. destruct (m h) as [[a | err] e1].
  - destruct (f a (h ++ events e1)) as [r' e2] eqn:Hf.
    intros [= <- <-]. right. now exists a, e1, e2.
  - intros [= <- <-]. left. now exists err.
Qed.

Lemma await_inv {A} c (answer : list Event -> Outcome A) inj h r e :
  await c answer inj h = (r, e) ->
  r = answer h /\
  e = {| events := [ {| call := c; response := answered inj r |} ];
         tasks := []; logs := [] |}.
Proof.
  unfold await. now intros [= <- <-].
Qed.

Lemma effects_app_nil_l (e : Effects) : effects_app no_effects e = e.
Proof. now destruct e. Qed.

Lemma bind_ext {A B} (m : M A) (f g : A -> M B) h :
  (forall a h', f a h' = g a h') -> bind m f h = bind m g h.
Proof.
  intros Hfg. unfold bind. destruct (m h) as [[a | err] e1]; [|reflexivity].
  now rewrite Hfg.
Qed.

Lemma bind_assoc {A B C} (m : M A) (f : A -> M B) (g : B -> M C) h :
  bind (bind m f) g h = bind m (fun a => bind (f a) g) h.
Proof.
  unfold bind. destruct (m h) as [[a | err] e1]; [|reflexivity].
  destruct (f a (h ++ events e1)) as [[b | err] e2]; [|reflexivity].
  simpl. rewrite app_assoc.
  destruct (g b ((h ++ events e1) ++ events e2)) as [r e3].
  now rewrite effects_app_assoc.
Qed.

Lemma bind_ret_l {A B} (a : A) (f : A -> M B) h :
  bind (ret a) f h = f a h.
Proof.
  unfold bind, ret. simpl. rewrite app_nil_r.
  destruct (f a h) as [r e]. now rewrite effects_app_nil_l.
Qed.

(** Runs the first computation of a [bind] in the hypothesis [H]: either it
    throws, or it yields [a] with the effects [e1] and [H] goes on with the
    rest, of effects [e2]. *)
Tactic Notation "run_bind" hyp(H) "as" ident(a) ident(e1) ident(e2)
    ident(H1) :=
  let err := fresh "err" in
  let Hr := fresh "Hr" in
  let He := fresh "He" in
  apply bind_inv in H;
  destruct H as [(err & H1 & Hr) | (a & e1 & e2 & H1 & H & He)];
  [ first [ discriminate Hr
          | match type of Hr with ?x = _ => subst x end
          | idtac ]
  | match type of He with ?x = _ => first [ subst x | idtac ] end ].

Ltac run_await H :=
  apply await_inv in H; destruct H as [? ->].

(* ================================================================== *)
(** ** The calls before the check run *)

Section Header.

Context (w : World) (env : ProcessEnv).

(** [scaleUp] is its lines up to the check run followed by the test of the
    status. *)
Lemma scaleUp_run src payload h :
  scaleUp w env src payload h =
  if negb (src =? "aws:sqs") then (Throw UnsupportedTransport, no_effects)
  else
    bind (scaleUp_checkRun w env payload)
      (fun cs => if snd cs =? "queued"
                 then scaleUp_queued w env payload (fst cs)
                 else ret tt) h.
Proof.
  unfold scaleUp, scaleUp_checkRun, scaleUp_client, scaleUp_installation.
  destruct (negb (src =? "aws:sqs")); [reflexivity|].
  cbv zeta.
  rewrite bind_assoc. apply bind_ext; intros resolved h1.
  rewrite bind_assoc. apply bind_ext; intros ghAuth h2.
  rewrite bind_assoc. apply bind_ext; intros client h3.
  rewrite bind_assoc. apply bind_ext; intros checkRun h4.
  now rewrite bind_ret_l.
Qed.

(** The lookup: nothing when the message has an installation id; otherwise
    the authentication as app, the client and the lookup, as far as they
    succeed. *)
Lemma scaleUp_installation_shape payload h r e :
  scaleUp_installation w env payload h = (r, e) ->
  tasks e = [] /\ logs e = [] /\
  if (installationId payload =? 0)%Z then
    (exists err, r = Throw err /\ events e = [appAuthEvent env (RError err)]) \/
    (exists a err, r = Throw err /\
       events e = [appAuthEvent env (RAuth a);
                   clientEvent env (token a) (RError err)]) \/
    (exists a c,
       events e = [appAuthEvent env (RAuth a);
                   clientEvent env (token a) (RClient c);
                   lookupEvent env payload c (answered RInstallation r)])
  else r = Ok (installationId payload) /\ events e = [].
Proof.
  unfold scaleUp_installation; cbv zeta.
  destruct (installationId payload =? 0)%Z.
  2:{ unfold ret. now intros [= <- <-]. }
  intros H. run_bind H as a ea e1 Ha.
  { run_await Ha. simpl. repeat split. left. now exists err. }
  run_await Ha. run_bind H as c ec e2 Hc.
  { run_await Hc. simpl. repeat split. right; left. now exists a, err. }
  run_await Hc.
  assert (He : e2 = {| events := [lookupEvent env payload c
                                    (answered RInstallation r)];
                       tasks := []; logs := [] |}).
  { unfold lookupEvent, lookupCall.
    destruct (enableOrgLevel env); now run_await H. }
  subst e2. simpl. repeat split. right; right. now exists a, c.
Qed.

(** The client of the installation and the check run, as far as they
    succeed. *)
Lemma scaleUp_client_shape payload resolved h r e :
  scaleUp_client w env payload resolved h = (r, e) ->
  tasks e = [] /\ logs e = [] /\
  ((exists err, r = Throw err /\
      events e = [installationAuthEvent env resolved (RError err)]) \/
   (exists a err, r = Throw err /\
      events e = [installationAuthEvent env resolved (RAuth a);
                  clientEvent env (token a) (RError err)]) \/
   (exists a c err, r = Throw err /\
      events e = [installationAuthEvent env resolved (RAuth a);
                  clientEvent env (token a) (RClient c);
                  checkRunEvent payload c (RError err)]) \/
   (exists a c s, r = Ok (c, s) /\
      events e = [installationAuthEvent env resolved (RAuth a);
                  clientEvent env (token a) (RClient c);
                  checkRunEvent payload c (RCheckRun s)])).
Proof.
  unfold scaleUp_client; cbv zeta. intros H. run_bind H as a ea e1 Ha.
  { run_await Ha. simpl. repeat split. left. now exists err. }
  run_await Ha. run_bind H as c ec e2 Hc.
  { run_await Hc. simpl. repeat split. right; left. now exists a, err. }
  run_await Hc. run_bind H as s es e3 Hs.
  { run_await Hs. simpl. repeat split. right; right; left.
    now exists a, c, err. }
  run_await Hs. unfold ret in H. injection H as <- <-.
  simpl. repeat split. right; right; right. now exists a, c, s.
Qed.

End Header.

(* ================================================================== *)
(** ** The loop over the runner types *)

Section Loop.

Context (w : World) (env : ProcessEnv) (payload : ActionRequestMessage)
        (c : Octokit) (currentRunners : list RunnerInfo).

Let body := scaleUp_runnerType w env payload c currentRunners.

(** The call of [allRunnersBusy] that is not awaited leaves a task and
    nothing else, whatever the function finds. *)
Lemma allRunnersBusy_promise_run k org repo orgLevel h :
  exists t,
    allRunnersBusy_promise w k org repo orgLevel h =
      (Ok (PromiseOf t), {| events := []; tasks := [t]; logs := [] |}) /\
    task_runnerType t = k /\
    allRunnersBusy w k org repo orgLevel h =
      (task_settled t,
       {| events := task_events t; tasks := []; logs := task_logs t |}).
Proof.
  unfold allRunnersBusy_promise.
  assert (Hnone : tasks (snd (allRunnersBusy w k org repo orgLevel h)) = []).
  { unfold allRunnersBusy, bind, createGitHubClientForRunner,
      listGithubRunners, await, console_info, ret. simpl.
    destruct (on_createGitHubClientForRunner w h org repo orgLevel);
      [|reflexivity].
    simpl. now destruct (on_listGithubRunners w _ _ org repo orgLevel). }
  destruct (allRunnersBusy w k org repo orgLevel h) as [r [evs ts ls]].
  simpl in Hnone. subst ts. eexists. split; [reflexivity|]. now simpl.
Qed.

(** One turn of the loop. *)
Lemma scaleUp_runnerType_shape k rt h r e :
  body k rt h = (r, e) ->
  logs e = [] /\
  if below_ceiling currentRunners (k, rt) then
    (exists t, tasks e = [t] /\ task_runnerType t = k) /\
    ((exists err,
        r = Throw err /\
        events e = [ {| call := tokenCall env payload c;
                        response := RError err |} ]) \/
     (exists tok,
        events e = [ {| call := tokenCall env payload c;
                        response := RToken tok |};
                     {| call := createCall env payload tok k rt;
                        response := answered (fun _ => RDone) r |} ]))
  else r = Ok tt /\ e = no_effects.
Proof.
  unfold body, scaleUp_runnerType, below_ceiling; cbv zeta. simpl fst; simpl snd.
  destruct (currentRunnerCount currentRunners k <? max_available rt)%Z.
  2:{ unfold ret. now intros [= <- <-]. }
  intros H. run_bind H as p ep e1 Hp.
  { destruct (allRunnersBusy_promise_run k (repositoryOwner payload)
                (repositoryName payload) (enableOrgLevel env) h)
      as (t & Ht & _).
    rewrite Ht in Hp. discriminate. }
  destruct (allRunnersBusy_promise_run k (repositoryOwner payload)
              (repositoryName payload) (enableOrgLevel env) h)
    as (t & Ht & Hk & _).
  rewrite Ht in Hp. injection Hp as <- <-.
  unfold ToBoolean in H. simpl in H. rewrite app_nil_r in H.
  run_bind H as tok et e2 Htok.
  { assert (He : e1 = {| events := [ {| call := tokenCall env payload c;
                                        response := RError err |} ];
                         tasks := []; logs := [] |}).
    { unfold tokenCall. destruct (enableOrgLevel env); now run_await Htok. }
    subst e1. simpl. repeat split; [now exists t|].
    left. now exists err. }
  assert (He : et = {| events := [ {| call := tokenCall env payload c;
                                      response := RToken tok |} ];
                       tasks := []; logs := [] |}).
  { unfold tokenCall. destruct (enableOrgLevel env); now run_await Htok. }
  subst et. run_await H. simpl. repeat split; [now exists t|].
  right. now exists tok.
Qed.

(** The turns of a loop that completes. *)
Lemma forIn_completes dict : forall h e,
  forIn dict body h = (Ok tt, e) ->
  logs e = [] /\
  map task_runnerType (tasks e) =
    map fst (filter (below_ceiling currentRunners) dict) /\
  exists per_type,
    events e = List.concat per_type /\
    Forall2 (provisioned_once env payload c currentRunners) dict per_type.
Proof.
  induction dict as [|[k rt] rest IH]; intros h e H; simpl in H.
  - unfold ret in H. inversion H; subst e. simpl. repeat split.
    exists []. split; [reflexivity|constructor].
  - run_bind H as u e1 e2 Hturn.
    destruct u. apply scaleUp_runnerType_shape in Hturn as (Hlog & Hturn).
    apply IH in H as (Hlogs & Htasks & per_type & Hev & Hall).
    simpl. rewrite Hlog, Hlogs, map_app, Htasks. split; [reflexivity|].
    unfold provisioned_once at 1.
    destruct (below_ceiling currentRunners (k, rt)) eqn:Hbelow.
    + destruct Hturn as ((t & Ht & Hk) & [(err & [=] & _) | (tok & Htok)]).
      rewrite Ht. simpl. rewrite Hk. split; [reflexivity|].
      exists (events e1 :: per_type). simpl. rewrite Hev.
      split; [reflexivity|]. constructor; [|assumption].
      unfold provisioned_once. rewrite Hbelow. now exists tok.
    + destruct Hturn as (_ & ->). simpl. split; [reflexivity|].
      exists ([] :: per_type). simpl. split; [assumption|].
      constructor; [|assumption].
      unfold provisioned_once. now rewrite Hbelow.
Qed.

(** In the calls of a loop that completes, the runner created for an entry
    below its ceiling is the only one of its runner type, when no two
    entries of the table have the same runner type. *)
Lemma provisioned_once_events dict per_type :
  Forall2 (provisioned_once env payload c currentRunners) dict per_type ->
  Forall (fun ev => forall rt, creates rt (call ev) -> In rt (map snd dict))
         (List.concat per_type).
Proof.
  induction 1 as [|[k rt] evs rest others Hturn _ IH]; simpl; [constructor|].
  apply Forall_app. split.
  - unfold provisioned_once in Hturn.
    destruct (below_ceiling currentRunners (k, rt)).
    + destruct Hturn as (tok & ->).
      apply Forall_cons; [|apply Forall_cons; [|apply Forall_nil]]; simpl.
      * unfold tokenCall. intros rt' (a1 & a2 & a3 & a4 & Heq).
        destruct (enableOrgLevel env); discriminate.
      * intros rt' (a1 & a2 & a3 & a4 & [= _ _ _ _ <-]). now left.
    + subst evs. constructor.
  - eapply Forall_impl; [|exact IH]. simpl. intros ev Hev rt' Hcr.
    right. now apply Hev.
Qed.

Lemma provisioned_once_alone dict per_type k rt :
  NoDup (map snd dict) ->
  Forall2 (provisioned_once env payload c currentRunners) dict per_type ->
  In (k, rt) dict ->
  below_ceiling currentRunners (k, rt) = true ->
  exists before tok after,
    List.concat per_type =
      before ++
      [ {| call := tokenCall env payload c; response := RToken tok |};
        {| call := createCall env payload tok k rt; response := RDone |} ] ++
      after /\
    Forall (fun ev => (is_token_call (call ev) || is_create_runner (call ev))
                      = true) before /\
    Forall (fun ev => ~ creates rt (call ev)) before /\
    Forall (fun ev => ~ creates rt (call ev)) after.
Proof.
  intros Hnodup Hall. revert Hnodup.
  induction Hall as [|[k0 rt0] evs rest others Hturn Hrest IH];
    intros Hnodup Hin Hbelow; [destruct Hin|].
  simpl in Hnodup. apply NoDup_cons_iff in Hnodup as [Hfresh Hnodup].
  destruct Hin as [[= -> ->] | Hin].
  - unfold provisioned_once in Hturn. rewrite Hbelow in Hturn.
    destruct Hturn as (tok & ->).
    exists [], tok, (List.concat others). repeat split; try constructor.
    eapply Forall_impl; [|exact (provisioned_once_events rest others Hrest)].
    simpl. intros ev Hev Hcr. apply Hfresh. now apply Hev.
  - destruct (IH Hnodup Hin Hbelow)
      as (before & tok & after & Heq & Hprov & Hbefore & Hafter).
    exists (evs ++ before), tok, after. simpl. rewrite Heq, <- app_assoc.
    assert (Hother : rt0 <> rt).
    { intros ->. apply Hfresh. now apply (in_map snd _ (k, rt)). }
    assert (Hevs : Forall (fun ev => (is_token_call (call ev)
                             || is_create_runner (call ev)) = true) evs /\
                   Forall (fun ev => ~ creates rt (call ev)) evs).
    { unfold provisioned_once in Hturn.
      destruct (below_ceiling currentRunners (k0, rt0)).
      - destruct Hturn as (tok0 & ->).
        split;
          (apply Forall_cons; [|apply Forall_cons; [|apply Forall_nil]]);
          simpl.
        + unfold tokenCall. now destruct (enableOrgLevel env).
        + reflexivity.
        + unfold tokenCall. intros (a1 & a2 & a3 & a4 & Heq').
          destruct (enableOrgLevel env); discriminate.
        + intros (a1 & a2 & a3 & a4 & [= _ _ _ _ Heq']). now apply Hother.
      - subst evs. split; constructor. }
    destruct Hevs as (Hevs1 & Hevs2).
    repeat split; try assumption; apply Forall_app; now split.
Qed.

(** A loop that completes asks for as many registration tokens, and creates
    as many runners, as there are entries below their ceiling. *)
Lemma provisioned_once_count dict per_type :
  Forall2 (provisioned_once env payload c currentRunners) dict per_type ->
  List.length (filter (fun ev => is_token_call (call ev))
                 (List.concat per_type)) =
    List.length (filter (below_ceiling currentRunners) dict) /\
  List.length (filter (fun ev => is_create_runner (call ev))
                 (List.concat per_type)) =
    List.length (filter (below_ceiling currentRunners) dict).
Proof.
  induction 1 as [|[k rt] evs rest others Hturn _ [IHt IHc]]; simpl;
    [now split|].
  rewrite !filter_app, !length_app, IHt, IHc.
  unfold provisioned_once in Hturn.
  destruct (below_ceiling currentRunners (k, rt)).
  - destruct Hturn as (tok & ->). simpl. unfold tokenCall.
    now destruct (enableOrgLevel env).
  - subst evs. now split.
Qed.

(** The turns of any loop, also one that a rejected call ends: the calls
    are for registration tokens and runners, and the runners and tasks are
    those of runner types below their ceiling. *)
Lemma forIn_any dict : forall h r e,
  forIn dict body h = (r, e) ->
  logs e = [] /\
  Forall (fun ev => (is_token_call (call ev) || is_create_runner (call ev))
                    = true) (events e) /\
  Forall (fun ev => forall rt, creates rt (call ev) ->
            exists k, In (k, rt) dict /\
                      below_ceiling currentRunners (k, rt) = true)
         (events e) /\
  Forall (fun t => exists rt, In (task_runnerType t, rt) dict /\
            below_ceiling currentRunners (task_runnerType t, rt) = true)
         (tasks e).
Proof.
  induction dict as [|[k rt] rest IH]; intros h r e H; simpl in H.
  - unfold ret in H. injection H as <- <-. simpl. repeat split; constructor.
  - assert (Hturn : forall r1 e1, body k rt h = (r1, e1) ->
      logs e1 = [] /\
      Forall (fun ev => (is_token_call (call ev) || is_create_runner (call ev))
                        = true) (events e1) /\
      Forall (fun ev => forall rt', creates rt' (call ev) ->
                exists k', In (k', rt') ((k, rt) :: rest) /\
                           below_ceiling currentRunners (k', rt') = true)
             (events e1) /\
      Forall (fun t => exists rt', In (task_runnerType t, rt') ((k, rt) :: rest) /\
                below_ceiling currentRunners (task_runnerType t, rt') = true)
             (tasks e1)).
    { intros r1 e1 H1. apply scaleUp_runnerType_shape in H1 as (Hlog & H1).
      split; [assumption|].
      destruct (below_ceiling currentRunners (k, rt)) eqn:Hbelow.
      - destruct H1 as ((t & -> & Hk) & [(err & _ & ->) | (tok & ->)]).
        + repeat split.
          * repeat constructor. simpl. unfold tokenCall.
            now destruct (enableOrgLevel env).
          * repeat constructor. simpl. unfold tokenCall.
            intros rt' (a1 & a2 & a3 & a4 & Heq).
            destruct (enableOrgLevel env); discriminate.
          * repeat constructor. exists rt. rewrite Hk. split; [now left|assumption].
        + repeat split.
          * repeat constructor; simpl. unfold tokenCall.
            now destruct (enableOrgLevel env).
          * repeat constructor; simpl.
            -- unfold tokenCall. intros rt' (a1 & a2 & a3 & a4 & Heq).
               destruct (enableOrgLevel env); discriminate.
            -- intros rt' (a1 & a2 & a3 & a4 & [= _ _ _ _ <-]).
               exists k. split; [now left|assumption].
          * repeat constructor. exists rt. rewrite Hk. split; [now left|assumption].
      - destruct H1 as (_ & ->). simpl. repeat split; constructor. }
    run_bind H as u e1 e2 H1; [now apply Hturn in H1|].
    apply Hturn in H1 as (Hl1 & Hp1 & Hc1 & Ht1).
    apply IH in H as (Hl2 & Hp2 & Hc2 & Ht2). simpl.
    rewrite Hl1, Hl2. repeat split.
    + apply Forall_app. now split.
    + apply Forall_app. split; [assumption|].
      eapply Forall_impl; [|exact Hc2]. simpl. intros ev Hev rt' Hcr.
      destruct (Hev rt' Hcr) as (k' & Hin & Hb). exists k'. split; [now right|assumption].
    + apply Forall_app. split; [assumption|].
      eapply Forall_impl; [|exact Ht2]. simpl. intros t (rt' & Hin & Hb).
      exists rt'. split; [now right|assumption].
Qed.

End Loop.

(* ================================================================== *)
(** ** The whole invocation *)

Section Invocation.

Context (w : World) (env : ProcessEnv).

Lemma scaleUp_checkRun_shape payload h r e :
  scaleUp_checkRun w env payload h = (r, e) ->
  tasks e = [] /\ logs e = [] /\
  Forall (fun ev => fleet_or_provisioning (call ev) = false) (events e) /\
  match r with
  | Ok (c, s) =>
      exists pre,
        events e = pre ++ [checkRunEvent payload c (RCheckRun s)] /\
        Forall (fun ev => forall s', response ev <> RCheckRun s') pre
  | Throw _ =>
      Forall (fun ev => forall s', response ev <> RCheckRun s') (events e)
  end.
Proof.
  unfold scaleUp_checkRun. intros H. run_bind H as resolved e1 e2 Hres.
  - apply scaleUp_installation_shape in Hres as (Ht & Hl & Hres).
    repeat split; try assumption;
      destruct (installationId payload =? 0)%Z;
      [ | destruct Hres; discriminate | | destruct Hres; discriminate ];
      destruct Hres as [(x & _ & ->) | [(a & x & _ & ->) | (a & c & ->)]];
      unfold lookupEvent, lookupCall; destruct (enableOrgLevel env);
      repeat constructor; simpl; discriminate.
  - apply scaleUp_installation_shape in Hres as (Ht1 & Hl1 & Hres).
    apply scaleUp_client_shape in H as (Ht2 & Hl2 & H).
    simpl. rewrite Ht1, Ht2, Hl1, Hl2.
    assert (Hpre : Forall (fun ev => fleet_or_provisioning (call ev) = false)
                     (events e1) /\
                   Forall (fun ev => forall s', response ev <> RCheckRun s')
                     (events e1)).
    { destruct (installationId payload =? 0)%Z.
      - destruct Hres as [(x & [=] & _) | [(a & x & [=] & _) | (a & c & ->)]].
        unfold lookupEvent, lookupCall; destruct (enableOrgLevel env);
          split; repeat constructor; simpl; discriminate.
      - destruct Hres as (_ & ->). split; constructor. }
    destruct Hpre as (Hp1 & Hp2).
    destruct H as [(x & -> & ->) | [(a & x & -> & ->) |
                   [(a & c & x & -> & ->) | (a & c & s & -> & ->)]]];
      (repeat split; [ apply Forall_app; split;
                         [assumption | repeat constructor]
                     | ]).
    1-3: apply Forall_app; split;
           [assumption | repeat constructor; simpl; discriminate].
    exists (events e1 ++ [installationAuthEvent env resolved (RAuth a);
                          clientEvent env (token a) (RClient c)]).
    split; [now rewrite <- app_assoc|].
    apply Forall_app. split; [assumption|].
    repeat constructor; simpl; discriminate.
Qed.

(** The block of a queued check run: the inventory is listed and, when it
    answers, the loop runs on what it answered. *)
Lemma scaleUp_queued_shape payload c h r e :
  scaleUp_queued w env payload c h = (r, e) ->
  exists listed,
    is_tracked_list (call listed) = true /\
    ((exists err, r = Throw err /\ response listed = RError err /\
                  e = {| events := [listed]; tasks := []; logs := [] |}) \/
     (exists cur e',
        response listed = RRunners cur /\
        events e = listed :: events e' /\ tasks e = tasks e' /\
        forIn runnerTypes (scaleUp_runnerType w env payload c cur)
          (h ++ [listed]) = (r, e'))).
Proof.
  unfold scaleUp_queued; cbv zeta. intros H. run_bind H as cur e1 e2 Hcur.
  - run_await Hcur. eexists {| call := ListRunners _ _; response := _ |}.
    split; [reflexivity|]. left. now exists err.
  - run_await Hcur. run_bind H as u eu e3 Hu; [discriminate|].
    unfold console_info in Hu. injection Hu as _ <-.
    cbn [events] in H. rewrite app_nil_r in H.
    eexists {| call := ListRunners _ _; response := _ |}.
    split; [reflexivity|]. right. exists cur, e3. now simpl.
Qed.

(** An invocation in which the inventory answered [currentRunners]: the
    calls before the loop provision nothing, and the loop ran on
    [currentRunners]. *)
Lemma scaleUp_listed src payload h r e environment repoName currentRunners :
  scaleUp w env src payload h = (r, e) ->
  In {| call := ListRunners environment repoName;
        response := RRunners currentRunners |} (events e) ->
  exists c before e',
    events e = before ++ events e' /\ tasks e = tasks e' /\
    Forall (fun ev => (is_token_call (call ev) || is_create_runner (call ev))
                      = false) before /\
    In (checkRunEvent payload c (RCheckRun "queued")) before /\
    forIn runnerTypes (scaleUp_runnerType w env payload c currentRunners)
      (h ++ before) = (r, e').
Proof.
  rewrite scaleUp_run. destruct (negb (src =? "aws:sqs")).
  { intros [= <- <-] []. }
  intros H Hin. run_bind H as cs e1 e2 Hcs.
  { apply scaleUp_checkRun_shape in Hcs as (_ & _ & Hno & _).
    rewrite Forall_forall in Hno. apply Hno in Hin. discriminate. }
  apply scaleUp_checkRun_shape in Hcs as (Ht1 & Hl1 & Hno & Hpre).
  destruct cs as [c s]. destruct Hpre as (pre & Hpre & _).
  simpl in Hin, H. apply in_app_or in Hin as [Hin | Hin].
  { rewrite Forall_forall in Hno. apply Hno in Hin. discriminate. }
  destruct (s =? "queued") eqn:Hs.
  2:{ unfold ret in H. injection H as _ <-. destruct Hin. }
  apply String.eqb_eq in Hs. subst s.
  apply scaleUp_queued_shape in H
    as (listed & Hlisted & [(err & -> & Hresp & ->) | (cur & e' & Hresp & Hev & Htasks & H)]).
  { destruct Hin as [Heq | []]. subst listed. discriminate. }
  assert (Hnot : Forall (fun ev => (is_token_call (call ev)
                           || is_create_runner (call ev)) = false)
                        (events e1 ++ [listed])).
  { apply Forall_app. split.
    - eapply Forall_impl; [|exact Hno]. simpl. intros ev.
      unfold fleet_or_provisioning.
      destruct (is_token_call (call ev)), (is_create_runner (call ev));
        rewrite ?orb_true_r; simpl; congruence.
    - repeat constructor. destruct listed as [[] ?]; try discriminate.
      reflexivity. }
  assert (cur = currentRunners) as ->.
  { rewrite Hev in Hin. destruct Hin as [Heq | Hin].
    - subst listed. simpl in Hresp. congruence.
    - apply forIn_any in H as (_ & Hprov & _).
      rewrite Forall_forall in Hprov. apply Hprov in Hin. discriminate. }
  exists c, (events e1 ++ [listed]), e'. simpl. rewrite Hev, Ht1, Htasks.
  repeat split.
  - now rewrite <- app_assoc.
  - assumption.
  - apply in_or_app. left. rewrite Hpre. apply in_or_app. right. now left.
  - now rewrite app_assoc.
Qed.

End Invocation.

(* ================================================================== *)
(** ** The table of runner types *)

(** The keys of [runnerTypes] are distinct, and so are its values. *)
Lemma runnerTypes_key k rt rt' :
  In (k, rt) runnerTypes -> In (k, rt') runnerTypes -> rt = rt'.
Proof.
  unfold runnerTypes. simpl. intros H H'.
  repeat match goal with
         | H : _ \/ _ |- _ => destruct H
         end; try contradiction; congruence.
Qed.

Lemma runnerTypes_value k k' rt :
  In (k, rt) runnerTypes -> In (k', rt) runnerTypes -> k = k'.
Proof.
  unfold runnerTypes. simpl. intros H H'.
  repeat match goal with
         | H : _ \/ _ |- _ => destruct H
         end; try contradiction; congruence.
Qed.

Lemma runnerTypes_distinct : NoDup (map snd runnerTypes).
Proof.
  unfold runnerTypes. simpl.
  repeat (apply NoDup_cons; [simpl; intuition discriminate|]).
  apply NoDup_nil.
Qed.

(** The calls of the block of a queued check run list the inventory, ask
    for registration tokens or create runners. *)
Lemma scaleUp_queued_calls w env payload c h r e :
  scaleUp_queued w env payload c h = (r, e) ->
  Forall (fun ev => (is_tracked_list (call ev) || is_token_call (call ev)
                     || is_create_runner (call ev)) = true) (events e).
Proof.
  intros H. apply scaleUp_queued_shape in H
    as (listed & Hlisted & [(err & _ & _ & ->) | (cur & e' & _ & -> & _ & H)]).
  - repeat constructor. simpl. now rewrite Hlisted.
  - constructor; [now rewrite Hlisted|].
    apply forIn_any in H as (_ & Hprov & _).
    eapply Forall_impl; [|exact Hprov]. simpl. intros ev Hev.
    rewrite <- orb_assoc, Hev. apply orb_true_r.
Qed.

(** An invocation that completes after the inventory answered: the calls
    of the loop, runner type by runner type. *)
Lemma scaleUp_completed w env src payload h e environment repoName
    currentRunners :
  scaleUp w env src payload h = (Ok tt, e) ->
  In {| call := ListRunners environment repoName;
        response := RRunners currentRunners |} (events e) ->
  exists client before per_type,
    events e = before ++ List.concat per_type /\
    Forall (fun ev => (is_token_call (call ev) || is_create_runner (call ev))
                      = false) before /\
    Forall2 (provisioned_once env payload client currentRunners)
      runnerTypes per_type /\
    map task_runnerType (tasks e) =
      map fst (filter (below_ceiling currentRunners) runnerTypes).
Proof.
  intros H Hlisted.
  apply (scaleUp_listed w env src payload h (Ok tt) e environment repoName
           currentRunners) in H
    as (client & before & e' & -> & -> & Hbefore & _ & H); [|assumption].
  apply forIn_completes in H as (_ & Htasks & per_type & -> & Hall).
  now exists client, before, per_type.
Qed.

(* ================================================================== *)
(** ** Properties of the invocation *)

(** C8.  An event source other than ["aws:sqs"] makes [scaleUp] throw the
    error of an unsupported transport at once: no call is made, no task is
    started, nothing is logged. *)
Theorem unsupported_transport_aborts w env src payload h :
  src <> "aws:sqs" ->
  scaleUp w env src payload h = (Throw UnsupportedTransport, no_effects).
Proof.
  intros Hsrc. unfold scaleUp.
  apply String.eqb_neq in Hsrc. now rewrite Hsrc.
Qed.

Lemma unsupported_transport_aborts_witness :
  scaleUp (mock "queued" [] []) env_default "aws:sns" (acme_widgets 0) [] =
  (Throw UnsupportedTransport, no_effects).
Proof.
  apply unsupported_transport_aborts. discriminate.
Defined.

(** C4.  When the check run is answered with a status other than
    ["queued"], the invocation ends without an error and neither lists the
    tracked runners, lists the live runners, asks for a registration token
    nor creates a runner; no admission check is started and nothing is
    logged. *)
Theorem not_queued_is_no_op w env src payload h r e c i owner repo s :
  scaleUp w env src payload h = (r, e) ->
  In {| call := ChecksGet c i owner repo; response := RCheckRun s |}
     (events e) ->
  s <> "queued" ->
  r = Ok tt /\
  Forall (fun ev => fleet_or_provisioning (call ev) = false) (events e) /\
  tasks e = [] /\ logs e = [].
Proof.
  rewrite scaleUp_run. destruct (negb (src =? "aws:sqs")).
  { intros [= <- <-] []. }
  intros H Hin Hs. run_bind H as cs e1 e2 Hcs.
  { apply scaleUp_checkRun_shape in Hcs as (_ & _ & _ & Hno).
    rewrite Forall_forall in Hno. now elim (Hno _ Hin s). }
  apply scaleUp_checkRun_shape in Hcs as (Ht1 & Hl1 & Hfleet & Hpre).
  destruct cs as [c0 s0]. destruct Hpre as (pre & Hpre & Hno).
  simpl in H. destruct (s0 =? "queued") eqn:Hs0.
  - exfalso. apply String.eqb_eq in Hs0. subst s0.
    simpl in Hin. apply in_app_or in Hin as [Hin | Hin].
    + rewrite Hpre in Hin. apply in_app_or in Hin as [Hin | [Hin | []]].
      * rewrite Forall_forall in Hno. now elim (Hno _ Hin s).
      * injection Hin as _ _ _ _ Heq. now apply Hs.
    + apply scaleUp_queued_calls in H. rewrite Forall_forall in H.
      apply H in Hin. discriminate.
  - unfold ret in H. injection H as <- <-. rewrite effects_app_nil_r.
    now repeat split.
Qed.

Lemma not_queued_is_no_op_witness :
  scaleUp (mock "completed" [] []) env_default "aws:sqs" (acme_widgets 0) [] =
    (Ok tt,
     {| events :=
          [ appAuthEvent env_default (RAuth {| token := "app-jwt" |});
            clientEvent env_default "app-jwt" (RClient (Client 1));
            lookupEvent env_default (acme_widgets 0) (Client 1)
              (RInstallation 42);
            installationAuthEvent env_default 42
              (RAuth {| token := "installation-token" |});
            clientEvent env_default "installation-token" (RClient (Client 2));
            checkRunEvent (acme_widgets 0) (Client 2) (RCheckRun "completed") ];
        tasks := []; logs := [] |}) /\
  (Ok tt = Ok tt /\
   Forall (fun ev => fleet_or_provisioning (call ev) = false)
     (events (snd (scaleUp (mock "completed" [] []) env_default "aws:sqs"
                     (acme_widgets 0) []))) /\
   tasks (snd (scaleUp (mock "completed" [] []) env_default "aws:sqs"
                 (acme_widgets 0) [])) = [] /\
   logs (snd (scaleUp (mock "completed" [] []) env_default "aws:sqs"
                (acme_widgets 0) [])) = []).
Proof.
  split; [reflexivity|].
  apply (not_queued_is_no_op (mock "completed" [] []) env_default "aws:sqs"
           (acme_widgets 0) [] (Ok tt) _ (Client 2) 7 "acme" "widgets"
           "completed").
  - reflexivity.
  - simpl. do 5 right. left. reflexivity.
  - discriminate.
Defined.

(** C10.  [scaleUp] does not read the [eventType] of the message: two
    messages that agree on the other fields lead to the same outcome, the
    same calls with the same arguments and answers, the same tasks and the
    same log. *)
Theorem eventType_is_not_read w env src p1 p2 h :
  id p1 = id p2 ->
  repositoryName p1 = repositoryName p2 ->
  repositoryOwner p1 = repositoryOwner p2 ->
  installationId p1 = installationId p2 ->
  scaleUp w env src p1 h = scaleUp w env src p2 h.
Proof.
  destruct p1, p2. simpl. intros -> -> -> ->. reflexivity.
Qed.

Lemma eventType_is_not_read_witness :
  scaleUp (mock "queued" [] []) env_default "aws:sqs"
    {| id := 7; eventType := "check_run"; repositoryName := "widgets";
       repositoryOwner := "acme"; installationId := 0 |} [] =
  scaleUp (mock "queued" [] []) env_default "aws:sqs"
    {| id := 7; eventType := "workflow_job"; repositoryName := "widgets";
       repositoryOwner := "acme"; installationId := 0 |} [].
Proof.
  apply eventType_is_not_read; reflexivity.
Defined.

(** C2.  A runner type whose tracked runners have reached its
    [max_available] is skipped: its turn of the loop starts no admission
    check (so no list of the live runners is asked for), asks for no
    registration token and creates no runner; and the invocation has no
    admission check and no create-runner call for this runner type. *)
Theorem ceiling_skips_runner_type w env payload currentRunners k rt :
  In (k, rt) runnerTypes ->
  (currentRunnerCount currentRunners k >= max_available rt)%Z ->
  (forall c h,
     scaleUp_runnerType w env payload c currentRunners k rt h =
     (Ok tt, no_effects)) /\
  (forall src h r e environment repoName,
     scaleUp w env src payload h = (r, e) ->
     In {| call := ListRunners environment repoName;
           response := RRunners currentRunners |} (events e) ->
     Forall (fun t => task_runnerType t <> k) (tasks e) /\
     Forall (fun ev => ~ creates rt (call ev)) (events e)).
Proof.
  intros Hin Hmax.
  assert (Hbelow : below_ceiling currentRunners (k, rt) = false).
  { unfold below_ceiling. simpl. apply Z.ltb_ge. lia. }
  split.
  - intros c h.
    destruct (scaleUp_runnerType w env payload c currentRunners k rt h)
      as [r e] eqn:H.
    apply scaleUp_runnerType_shape in H as (_ & H).
    rewrite Hbelow in H. now destruct H as (-> & ->).
  - intros src h r e environment repoName H Hlisted.
    apply (scaleUp_listed w env src payload h r e environment repoName
             currentRunners) in H
      as (c & before & e' & -> & -> & Hbefore & _ & H); [|assumption].
    apply forIn_any in H as (_ & _ & Hcreates & Htasks). split.
    + eapply Forall_impl; [|exact Htasks]. simpl.
      intros t (rt' & Hin' & Hb) Heq. rewrite Heq in Hin', Hb.
      rewrite (runnerTypes_key k rt rt' Hin Hin') in Hbelow. congruence.
    + apply Forall_app. split.
      * eapply Forall_impl; [|exact Hbefore]. simpl.
        intros ev Hev (a1 & a2 & a3 & a4 & Heq). rewrite Heq in Hev.
        discriminate.
      * eapply Forall_impl; [|exact Hcreates]. simpl.
        intros ev Hev Hcr. destruct (Hev rt Hcr) as (k' & Hin' & Hb).
        rewrite (runnerTypes_value k k' rt Hin Hin') in Hbelow. congruence.
Qed.

(** C9.  In an invocation that completes on a queued check run, every
    runner type of the table whose tracked runners are fewer than its
    [max_available] gets one registration token and, with it, one runner:
    its create-runner call is the only one for this runner type, and the
    invocation asks for as many tokens and creates as many runners as there
    are runner types below their ceiling.  An admission check was started
    for the runner type, but nothing is assumed of the live runners: what
    the check finds has no part in it. *)
Theorem admission_is_always_granted w env src payload h e c i owner repo
    environment repoName currentRunners k rt :
  scaleUp w env src payload h = (Ok tt, e) ->
  In {| call := ChecksGet c i owner repo; response := RCheckRun "queued" |}
     (events e) ->
  In {| call := ListRunners environment repoName;
        response := RRunners currentRunners |} (events e) ->
  In (k, rt) runnerTypes ->
  (currentRunnerCount currentRunners k < max_available rt)%Z ->
  (exists client before tok after,
     events e =
       before ++
       [ {| call := tokenCall env payload client; response := RToken tok |};
         {| call := createCall env payload tok k rt; response := RDone |} ] ++
       after /\
     Forall (fun ev => ~ creates rt (call ev)) before /\
     Forall (fun ev => ~ creates rt (call ev)) after) /\
  List.length (filter (fun ev => is_token_call (call ev)) (events e)) =
    List.length (filter (below_ceiling currentRunners) runnerTypes) /\
  List.length (filter (fun ev => is_create_runner (call ev)) (events e)) =
    List.length (filter (below_ceiling currentRunners) runnerTypes) /\
  (exists t, In t (tasks e) /\ task_runnerType t = k).
Proof.
  intros H _ Hlisted Hin Hlt.
  assert (Hbelow : below_ceiling currentRunners (k, rt) = true).
  { unfold below_ceiling. simpl. now apply Z.ltb_lt. }
  destruct (scaleUp_completed w env src payload h e environment repoName
              currentRunners H Hlisted)
    as (client & first & per_type & -> & Hfirst & Hall & Htasks).
  assert (Hnone : forall f : Call -> bool,
            (forall ev, (is_token_call (call ev) || is_create_runner (call ev))
                          = false -> f (call ev) = true -> False) ->
            filter (fun ev => f (call ev)) first = []).
  { intros f Hf. induction Hfirst as [|ev l Hev _ IH]; simpl; [reflexivity|].
    destruct (f (call ev)) eqn:Hfev; [elim (Hf ev Hev Hfev) | exact IH]. }
  destruct (provisioned_once_count env payload client currentRunners
              runnerTypes per_type Hall) as (Htokens & Hcreated).
  split; [|split; [|split]].
  - destruct (provisioned_once_alone env payload client currentRunners
                runnerTypes per_type k rt runnerTypes_distinct Hall Hin Hbelow)
      as (before & tok & after & -> & _ & Hbefore & Hafter).
    exists client, (first ++ before), tok, after.
    rewrite <- app_assoc. repeat split; [|assumption].
    apply Forall_app. split; [|assumption].
    eapply Forall_impl; [|exact Hfirst]. simpl.
    intros ev Hev (a1 & a2 & a3 & a4 & Heq). rewrite Heq in Hev.
    discriminate.
  - rewrite filter_app, length_app, Htokens, Hnone; [reflexivity|].
    intros ev Hev Hf. rewrite Hf in Hev. discriminate.
  - rewrite filter_app, length_app, Hcreated, Hnone; [reflexivity|].
    intros ev Hev Hf. rewrite Hf, orb_true_r in Hev. discriminate.
  - assert (Hk : In k (map task_runnerType (tasks e))).
    { rewrite Htasks. apply (in_map fst _ (k, rt)).
      apply filter_In. now split. }
    apply in_map_iff in Hk as (t & Hk & Ht). now exists t.
Qed.

(** C5.  The scenario: organization level, owner "acme", repository
    "widgets", no enterprise server, a queued check run and five tracked
    [linux.2xlarge] runners.  An invocation that completes asks for one
    registration token of the organization "acme" and creates with it one
    [linux.2xlarge] runner, whose configuration has the URL
    https://github.com/acme and the label linux.2xlarge; no call before
    them provisions anything, and the calls after them are those of the
    other runner types.  The three busy live runners of the scenario are
    not an assumption; they are those of [run_scenario true]. *)
Theorem scenario_all_busy_provisions w env src payload h e c i owner repo
    environment repoName currentRunners rt :
  enableOrgLevel env = true ->
  truthy (GHES_URL env) = false ->
  repositoryOwner payload = "acme" ->
  repositoryName payload = "widgets" ->
  In ("linux.2xlarge", rt) runnerTypes ->
  scaleUp w env src payload h = (Ok tt, e) ->
  In {| call := ChecksGet c i owner repo; response := RCheckRun "queued" |}
     (events e) ->
  In {| call := ListRunners environment repoName;
        response := RRunners currentRunners |} (events e) ->
  currentRunnerCount currentRunners "linux.2xlarge" = 5%Z ->
  exists client before tok others,
    events e =
      before ++
      [ {| call := CreateRegistrationTokenForOrg client "acme";
           response := RToken tok |};
        {| call :=
             CreateRunner (ENVIRONMENT env)
               ("--url https://github.com/acme --token " +:+ tok +:+
                " --labels linux.2xlarge" +:+
                match RUNNER_EXTRA_LABELS env with
                | Some extra => "," +:+ extra
                | None => ""
                end +:+
                runnerGroupArgument (RUNNER_GROUP_NAME env))
               (Some "acme") None rt;
           response := RDone |} ] ++
      List.concat others /\
    Forall (fun ev => (is_token_call (call ev) || is_create_runner (call ev))
                      = false) before /\
    Forall2 (provisioned_once env payload client currentRunners)
      (tl runnerTypes) others /\
    Forall (fun ev => ~ creates rt (call ev)) (List.concat others).
Proof.
  intros Horg Hghes Howner Hrepo Hrt H Hqueued Hlisted Hcount.
  destruct (scaleUp_completed w env src payload h e environment repoName
              currentRunners H Hlisted)
    as (client & before & per_type & -> & Hbefore & Hall & _).
  assert (Hbase : configBaseUrl (GHES_URL env) = "https://github.com").
  { unfold configBaseUrl. destruct (GHES_URL env) as [u|]; [|reflexivity].
    simpl in Hghes. now destruct (u =? ""). }
  assert (rt = snd (hd ("", rt) runnerTypes)) as Hfirst.
  { apply (runnerTypes_key "linux.2xlarge"); [assumption|]. now left. }
  unfold runnerTypes in Hall, Hfirst. simpl in Hfirst.
  inversion Hall as [|first turn rest others Hturn Hothers]; subst.
  unfold provisioned_once at 1, below_ceiling in Hturn. simpl in Hturn.
  rewrite Hcount in Hturn. simpl in Hturn. destruct Hturn as (tok & ->).
  exists client, before, tok, others. repeat split; try assumption.
  - simpl. unfold tokenCall, createCall, runnerConfig.
    rewrite Horg, Howner, Hbase. unfold labelsArgument.
    now destruct (RUNNER_EXTRA_LABELS env).
  - clear Hall.
    repeat match goal with
           | Hf : Forall2 _ _ _ |- _ => inversion Hf; clear Hf; subst
           end.
    repeat match goal with
           | Hp : provisioned_once _ _ _ _ _ _ |- _ =>
               unfold provisioned_once in Hp;
               destruct (below_ceiling _ _);
               [destruct Hp as (? & ->) | subst]
           end;
      simpl; unfold tokenCall, createCall; rewrite ?Horg;
      repeat constructor; simpl;
      intros (a1 & a2 & a3 & a4 & Heq); discriminate.
Qed.

(** C6.  A message with an installation id makes no installation lookup.
    A message with the installation id 0 starts, in any invocation that
    reaches a call under the identity of the installation, with the
    authentication as app, the client and one lookup (of the organization
    at organization level, of the repository otherwise), whose answer is
    the installation then authenticated; no other lookup follows, and an
    invocation that completes has reached such a call.  No invocation makes
    more than one lookup. *)
Theorem installation_lookup_once w env src payload h r e :
  scaleUp w env src payload h = (r, e) ->
  (installationId payload <> 0%Z ->
   Forall (fun ev => is_lookup (call ev) = false) (events e)) /\
  (installationId payload = 0%Z ->
   Exists (fun ev => installation_scoped (call ev) = true) (events e) ->
   exists a client resolved answer rest,
     events e =
       [ appAuthEvent env (RAuth a);
         clientEvent env (token a) (RClient client);
         lookupEvent env payload client (RInstallation resolved);
         installationAuthEvent env resolved answer ] ++ rest /\
     is_lookup (lookupCall env payload client) = true /\
     Forall (fun ev => is_lookup (call ev) = false) rest) /\
  (r = Ok tt ->
   Exists (fun ev => installation_scoped (call ev) = true) (events e)) /\
  List.length (filter (fun ev => is_lookup (call ev)) (events e)) <= 1.
Proof.
  rewrite scaleUp_run. destruct (negb (src =? "aws:sqs")).
  { intros [= <- <-]. repeat split.
    - constructor.
    - intros _ Hex. inversion Hex.
    - discriminate.
    - simpl. lia. }
  intros H.
  assert (Hshape : exists e1 e2 r1,
            e = effects_app e1 e2 /\
            scaleUp_installation w env payload h = (r1, e1) /\
            Forall (fun ev => is_lookup (call ev) = false) (events e2) /\
            match r1 with
            | Ok resolved =>
                (exists answer rest,
                   events e2 = installationAuthEvent env resolved answer
                               :: rest)
            | Throw _ => e2 = no_effects /\ r <> Ok tt
            end).
  { run_bind H as cs e1 e2 Hcs.
    - unfold scaleUp_checkRun in Hcs. run_bind Hcs as resolved e1 e2 Hres.
      + exists e, no_effects, (Throw err0).
        rewrite effects_app_nil_r. repeat split; try assumption;
          [constructor|discriminate].
      + exists e1, e2, (Ok resolved). repeat split; try assumption.
        * apply scaleUp_client_shape in Hcs
            as (_ & _ & [(x & _ & ->) | [(a & x & _ & ->) |
                 [(a & c & x & _ & ->) | (a & c & s & _ & ->)]]]);
            repeat constructor.
        * apply scaleUp_client_shape in Hcs
            as (_ & _ & [(x & _ & ->) | [(a & x & _ & ->) |
                 [(a & c & x & _ & ->) | (a & c & s & _ & ->)]]]);
            eexists; eexists; reflexivity.
    - unfold scaleUp_checkRun in Hcs. run_bind Hcs as resolved e3 e4 Hres.
      exists e3, (effects_app e4 e2), (Ok resolved).
      rewrite effects_app_assoc. split; [reflexivity|].
      split; [assumption|].
      assert (Hk : Forall (fun ev => is_lookup (call ev) = false) (events e2)).
      { destruct (snd cs =? "queued").
        - apply scaleUp_queued_calls in H.
          eapply Forall_impl; [|exact H]. simpl. intros ev Hev.
          destruct (call ev); try reflexivity; discriminate.
        - unfold ret in H. injection H as _ <-. constructor. }
      apply scaleUp_client_shape in Hcs
        as (_ & _ & [(x & [=] & _) | [(a & x & [=] & _) |
             [(a & c & x & [=] & _) | (a & c & s & _ & Hev)]]]).
      simpl. rewrite Hev. split.
      + simpl. repeat constructor. assumption.
      + eexists; eexists; reflexivity. }
  destruct Hshape as (e1 & e2 & r1 & -> & Hres & Hno & Hnext).
  apply scaleUp_installation_shape in Hres as (_ & _ & Hres).
  repeat split.
  - intros Hid. apply Z.eqb_neq in Hid. rewrite Hid in Hres.
    destruct Hres as (_ & Hev). simpl. now rewrite Hev.
  - intros Hid Hex. rewrite Hid in Hres. simpl in Hres, Hex.
    destruct Hres as [(x & -> & Hev) | [(a & x & -> & Hev) | (a & client & Hev)]].
    + destruct Hnext as (-> & _). rewrite Hev in Hex. simpl in Hex.
      inversion Hex as [? ? Hx | ? ? Hx]; [discriminate | inversion Hx].
    + destruct Hnext as (-> & _). rewrite Hev in Hex. simpl in Hex.
      inversion Hex as [? ? Hx | ? ? Hx]; [discriminate|].
      inversion Hx as [? ? Hy | ? ? Hy]; [discriminate | inversion Hy].
    + destruct r1 as [resolved | x].
      * destruct Hnext as (answer & rest & Hrest).
        exists a, client, resolved, answer, rest. simpl in Hev.
        cbn [events effects_app]. rewrite Hev, Hrest. repeat split.
        -- unfold lookupCall. now destruct (enableOrgLevel env).
        -- rewrite Hrest in Hno. now inversion Hno.
      * destruct Hnext as (-> & _). rewrite Hev in Hex. simpl in Hex.
        unfold lookupEvent, lookupCall in Hex.
        destruct (enableOrgLevel env);
          repeat match goal with
                 | Hx : Exists _ _ |- _ => inversion Hx; clear Hx; subst
                 end; discriminate.
  - intros ->. destruct r1 as [resolved | x].
    + destruct Hnext as (answer & rest & Hrest). simpl. rewrite Hrest.
      apply Exists_app. right. now left.
    + now destruct Hnext as (_ & Hnot).
  - simpl. rewrite filter_app, length_app.
    assert (Hnone : filter (fun ev => is_lookup (call ev)) (events e2) = []).
    { clear Hnext. induction Hno as [|ev l Hev _ IH]; simpl; [reflexivity|].
      now rewrite Hev. }
    rewrite Hnone. simpl. rewrite Nat.add_0_r.
    destruct (installationId payload =? 0)%Z.
    + destruct Hres as [(x & _ & ->) | [(a & x & _ & ->) | (a & client & ->)]];
        simpl; unfold lookupCall; destruct (enableOrgLevel env); simpl; lia.
    + destruct Hres as (_ & ->). simpl. lia.
Qed.

(* ================================================================== *)
(** ** Words of a string *)

Lemma append_assoc (a b c : string) : (a +:+ b) +:+ c = a +:+ b +:+ c.
Proof.
  induction a as [|x a IH]; simpl; [reflexivity|]. now rewrite IH.
Qed.

Lemma append_empty_r (a : string) : a +:+ "" = a.
Proof.
  induction a as [|x a IH]; simpl; [reflexivity|]. now rewrite IH.
Qed.

Lemma has_char_append c (a b : string) :
  has_char c (a +:+ b) = has_char c a || has_char c b.
Proof.
  induction a as [|x a IH]; simpl; [reflexivity|].
  now rewrite IH, orb_assoc.
Qed.

Lemma split_on_whole sep s :
  has_char sep s = false -> split_on sep s = [s].
Proof.
  induction s as [|x s IH]; simpl; [reflexivity|].
  intros H. apply orb_false_iff in H as [Hx Hs].
  now rewrite Hx, (IH Hs).
Qed.

Lemma split_on_append sep (a b : string) :
  split_on sep (a +:+ String sep b) = split_on sep a ++ split_on sep b.
Proof.
  induction a as [|x a IH]; simpl.
  - now rewrite Ascii.eqb_refl.
  - destruct (Ascii.eqb x sep); [now rewrite IH|].
    rewrite IH. destruct (split_on sep a) as [|piece pieces] eqn:Ha.
    + destruct a; simpl in Ha; [discriminate|].
      destruct (Ascii.eqb a sep); [discriminate|].
      destruct (split_on sep a0); discriminate.
    + reflexivity.
Qed.

Lemma cut_at_whole sep s :
  has_char sep s = false -> cut_at sep s = (s, None).
Proof.
  induction s as [|x s IH]; simpl; [reflexivity|].
  intros H. apply orb_false_iff in H as [Hx Hs].
  now rewrite Hx, (IH Hs).
Qed.

Lemma cut_at_append sep (a b : string) :
  has_char sep a = false -> cut_at sep (a +:+ String sep b) = (a, Some b).
Proof.
  induction a as [|x a IH]; simpl.
  - now rewrite Ascii.eqb_refl.
  - intros H. apply orb_false_iff in H as [Hx Ha].
    now rewrite Hx, (IH Ha).
Qed.

(** A runner configuration ends with its labels and, at organization level,
    its runner group. *)
Lemma runnerConfig_ending orgLevel ghesBaseUrl owner repo tok extra group k :
  exists front,
    runnerConfig orgLevel ghesBaseUrl owner repo tok extra group k =
    front +:+ " --labels " +:+ labelList extra k +:+
    runnerGroupArgument (if orgLevel then group else None).
Proof.
  unfold runnerConfig, labelsArgument, labelList. destruct orgLevel.
  - exists ("--url " +:+ configBaseUrl ghesBaseUrl +:+ "/" +:+ owner +:+
            " --token " +:+ tok).
    rewrite !append_assoc. now destruct extra.
  - exists ("--url " +:+ configBaseUrl ghesBaseUrl +:+ "/" +:+ owner +:+
            "/" +:+ repo +:+ " --token " +:+ tok).
    rewrite !append_assoc. simpl. rewrite append_empty_r. now destruct extra.
Qed.

Lemma parsed_of_labelList extra group k :
  has_char "," k = false ->
  parsed_of (labelList extra k) group =
  {| parsed_label := k;
     parsed_extraLabels := extra;
     parsed_runnerGroup := group |}.
Proof.
  intros Hk. unfold parsed_of, labelList. destruct extra as [extra|].
  - change (k +:+ "," +:+ extra) with (k +:+ String "," extra).
    now rewrite cut_at_append.
  - now rewrite cut_at_whole.
Qed.

Lemma words_with_labels front l :
  has_char " " l = false ->
  rev (split_on " " (front +:+ " --labels " +:+ l)) =
  l :: "--labels" :: rev (split_on " " front).
Proof.
  intros Hl.
  replace (front +:+ " --labels " +:+ l)
    with (front +:+ String " " ("--labels" +:+ String " " l))
    by reflexivity.
  rewrite !split_on_append, (split_on_whole " " l Hl).
  rewrite (split_on_whole " " "--labels" eq_refl).
  now rewrite !rev_app_distr.
Qed.

Lemma words_with_runnergroup front l g :
  has_char " " l = false ->
  has_char " " g = false ->
  rev (split_on " " (front +:+ " --labels " +:+ l +:+ " --runnergroup " +:+ g)) =
  g :: "--runnergroup" :: l :: "--labels" :: rev (split_on " " front).
Proof.
  intros Hl Hg.
  replace (front +:+ " --labels " +:+ l +:+ " --runnergroup " +:+ g)
    with (front +:+ String " " ("--labels" +:+ String " "
            (l +:+ String " " ("--runnergroup" +:+ String " " g))))
    by reflexivity.
  rewrite !split_on_append, (split_on_whole " " l Hl),
    (split_on_whole " " g Hg).
  rewrite (split_on_whole " " "--labels" eq_refl).
  rewrite (split_on_whole " " "--runnergroup" eq_refl).
  now rewrite !rev_app_distr.
Qed.

(** C7, as amended.  When the label of the runner type has no space and no
    comma, and the extra labels and the runner group, where configured,
    have no space, the last words of the composed configuration give back
    the label, the extra labels, and the runner group at organization
    level (no runner group at repository level, where none is written). *)
Theorem runnerConfig_read_back orgLevel ghesBaseUrl owner repo tok extra
    group k :
  has_char " " k = false ->
  has_char "," k = false ->
  (forall x, extra = Some x -> has_char " " x = false) ->
  (forall g, group = Some g -> has_char " " g = false) ->
  parse_runnerConfig
    (runnerConfig orgLevel ghesBaseUrl owner repo tok extra group k) =
  Some {| parsed_label := k;
          parsed_extraLabels := extra;
          parsed_runnerGroup := if orgLevel then group else None |}.
Proof.
  intros Hk Hcomma Hextra Hgroup.
  destruct (runnerConfig_ending orgLevel ghesBaseUrl owner repo tok extra
              group k) as (front & ->).
  assert (Hl : has_char " " (labelList extra k) = false).
  { unfold labelList. destruct extra as [x|]; [|assumption].
    rewrite !has_char_append, Hk, (Hextra x eq_refl). reflexivity. }
  assert (Hg : forall g, (if orgLevel then group else None) = Some g ->
                         has_char " " g = false).
  { destruct orgLevel; [assumption | discriminate]. }
  clear Hgroup. unfold parse_runnerConfig.
  destruct (if orgLevel then group else None) as [g|].
  - unfold runnerGroupArgument.
    rewrite (words_with_runnergroup front _ g Hl (Hg g eq_refl)).
    simpl. now rewrite parsed_of_labelList.
  - unfold runnerGroupArgument. rewrite append_empty_r.
    rewrite (words_with_labels front _ Hl).
    simpl. now rewrite parsed_of_labelList.
Qed.

Lemma runnerConfig_read_back_witness :
  parse_runnerConfig
    (runnerConfig true None "acme" "widgets" "T" (Some "gpu,fast")
       (Some "ci") "linux.2xlarge") =
  Some {| parsed_label := "linux.2xlarge";
          parsed_extraLabels := Some "gpu,fast";
          parsed_runnerGroup := Some "ci" |}.
Proof.
  apply (runnerConfig_read_back true None "acme" "widgets" "T"
           (Some "gpu,fast") (Some "ci") "linux.2xlarge").
  - reflexivity.
  - reflexivity.
  - intros x [= <-]. reflexivity.
  - intros g [= <-]. reflexivity.
Defined.

(** C7, as stated, fails: a runner group of two words is not read back, and
    extra labels with a space compose the very string of other settings, so
    that no reading gives both settings back. *)
Lemma runnerConfig_read_back_fails :
  parse_runnerConfig
    (runnerConfig true None "acme" "widgets" "T" (Some "gpu")
       (Some "Build Farm") "linux.2xlarge") = None /\
  runnerConfig true None "acme" "widgets" "T" (Some "gpu --runnergroup ci")
    None "linux.2xlarge" =
  runnerConfig true None "acme" "widgets" "T" (Some "gpu")
    (Some "ci") "linux.2xlarge".
Proof.
  split; reflexivity.
Qed.

(* ================================================================== *)
(** ** The admission check *)

(** C3.  When no live runner has the label of the runner type and is not
    offline, [allRunnersBusy] resolves to [true]; and the turn of a runner
    type below its ceiling always asks for a registration token, so that
    such a runner type is not turned away. *)
Theorem no_matching_runner_admits w k org repo orgLevel h r e client
    ghRunners :
  allRunnersBusy w k org repo orgLevel h = (r, e) ->
  In {| call := ListGithubRunners client org repo orgLevel;
        response := RGhRunners ghRunners |} (events e) ->
  runnersWithLabel k ghRunners = [] ->
  r = Ok true /\
  forall env payload c currentRunners rt h' r' e',
    below_ceiling currentRunners (k, rt) = true ->
    scaleUp_runnerType w env payload c currentRunners k rt h' = (r', e') ->
    exists answer rest,
      events e' = {| call := tokenCall env payload c; response := answer |}
                  :: rest.
Proof.
  intros H Hin Hnone. split.
  - unfold allRunnersBusy in H. run_bind H as gh eg e1 Hgh.
    { run_await Hgh. destruct Hin as [[=] | []]. }
    run_await Hgh. run_bind H as l el e2 Hl.
    { run_await Hl. destruct Hin as [[=] | [[=] | []]]. }
    run_await Hl. run_bind H as u eu e3 Hu; [discriminate|].
    unfold console_info in Hu. injection Hu as _ <-.
    unfold ret in H. injection H as <- <-.
    destruct Hin as [[=] | [[= _ Heq] | []]]. subst l.
    now rewrite Hnone.
  - intros env payload c currentRunners rt h' r' e' Hbelow Hturn.
    apply scaleUp_runnerType_shape in Hturn as (_ & Hturn).
    rewrite Hbelow in Hturn.
    destruct Hturn as (_ & [(err & _ & ->) | (tok & ->)]);
      eexists; eexists; reflexivity.
Qed.

Lemma no_matching_runner_admits_witness :
  fst (allRunnersBusy (mock "queued" [] (three_live true))
         "win.2xlarge" "acme" "widgets" true []) = Ok true.
Proof.
  apply (no_matching_runner_admits (mock "queued" [] (three_live true))
           "win.2xlarge" "acme" "widgets" true [] _
           (snd (allRunnersBusy (mock "queued" [] (three_live true))
                   "win.2xlarge" "acme" "widgets" true []))
           (Client 3) (three_live true)).
  - vm_compute. reflexivity.
  - vm_compute. right. left. reflexivity.
  - vm_compute. reflexivity.
Defined.

(** C1 fails on the code.  In the scenario of the specification with one
    of the three live [linux.2xlarge] runners idle, the admission check of
    this runner type resolves to [false], and yet a registration token is
    asked for and a [linux.2xlarge] runner is created: line 117 tests the
    promise of [allRunnersBusy], not what it resolves to. *)
Theorem idle_runner_still_provisions :
  fst (run_scenario false) = Ok tt /\
  (exists t,
     In t (tasks (snd (run_scenario false))) /\
     task_runnerType t = "linux.2xlarge" /\
     In {| call := ListGithubRunners (Client 3) "acme" "widgets" true;
           response := RGhRunners (three_live false) |} (task_events t) /\
     task_settled t = Ok false) /\
  (exists rt,
     In ("linux.2xlarge", rt) runnerTypes /\
     (currentRunnerCount five_tracked "linux.2xlarge" < max_available rt)%Z /\
     In {| call :=
             CreateRunner (Some "prod")
               "--url https://github.com/acme --token T7 --labels linux.2xlarge"
               (Some "acme") None rt;
           response := RDone |} (events (snd (run_scenario false)))) /\
  ~ In "No runner will be created, maximum number of runners reached."
       (logs (snd (run_scenario false))).
Proof.
  vm_compute. split; [reflexivity|]. split; [|split].
  - eexists. split; [left; reflexivity|].
    split; [reflexivity|]. split; [|reflexivity]. right. left. reflexivity.
  - eexists. split; [left; reflexivity|]. split; [reflexivity|].
    do 8 right. left. reflexivity.
  - intros [[=] | []].
Qed.

(* ================================================================== *)
(** ** The properties on the sample invocations *)

Lemma ceiling_skips_runner_type_witness :
  exists rt,
    In ("linux.2xlarge", rt) runnerTypes /\
    scaleUp_runnerType (mock "queued" two_hundred_tracked (three_live true))
      env_default (acme_widgets 0) (Client 2) two_hundred_tracked
      "linux.2xlarge" rt [] = (Ok tt, no_effects) /\
    Forall (fun t => task_runnerType t <> "linux.2xlarge")
      (tasks (snd run_at_ceiling)) /\
    Forall (fun ev => ~ creates rt (call ev)) (events (snd run_at_ceiling)).
Proof.
  eexists. split; [left; reflexivity|].
  destruct (ceiling_skips_runner_type
              (mock "queued" two_hundred_tracked (three_live true))
              env_default (acme_widgets 0) two_hundred_tracked
              "linux.2xlarge" _ (or_introl eq_refl))
    as [Hturn Hrun].
  - vm_compute. discriminate.
  - split; [apply Hturn|].
    apply (Hrun "aws:sqs" [] (fst run_at_ceiling) (snd run_at_ceiling)
             (Some "prod") None).
    + apply surjective_pairing.
    + vm_compute. do 6 right. left. reflexivity.
Defined.

Lemma admission_is_always_granted_witness :
  exists rt,
    In ("linux.2xlarge", rt) runnerTypes /\
    (exists client before tok after,
       events (snd (run_scenario false)) =
         before ++
         [ {| call := tokenCall env_default (acme_widgets 0) client;
              response := RToken tok |};
           {| call := createCall env_default (acme_widgets 0) tok
                        "linux.2xlarge" rt;
              response := RDone |} ] ++
         after /\
       Forall (fun ev => ~ creates rt (call ev)) before /\
       Forall (fun ev => ~ creates rt (call ev)) after) /\
    List.length (filter (fun ev => is_token_call (call ev))
                   (events (snd (run_scenario false)))) =
      List.length (filter (below_ceiling five_tracked) runnerTypes) /\
    List.length (filter (fun ev => is_create_runner (call ev))
                   (events (snd (run_scenario false)))) =
      List.length (filter (below_ceiling five_tracked) runnerTypes) /\
    (exists t, In t (tasks (snd (run_scenario false))) /\
               task_runnerType t = "linux.2xlarge").
Proof.
  eexists. split; [left; reflexivity|].
  apply (admission_is_always_granted
           (mock "queued" five_tracked (three_live false)) env_default
           "aws:sqs" (acme_widgets 0) [] (snd (run_scenario false))
           (Client 2) 7 "acme" "widgets" (Some "prod") None five_tracked).
  - vm_compute. reflexivity.
  - vm_compute. do 5 right. left. reflexivity.
  - vm_compute. do 6 right. left. reflexivity.
  - left. reflexivity.
  - vm_compute. reflexivity.
Defined.

Lemma scenario_all_busy_provisions_witness :
  exists rt client before tok others,
    In ("linux.2xlarge", rt) runnerTypes /\
    events (snd (run_scenario true)) =
      before ++
      [ {| call := CreateRegistrationTokenForOrg client "acme";
           response := RToken tok |};
        {| call :=
             CreateRunner (Some "prod")
               ("--url https://github.com/acme --token " +:+ tok +:+
                " --labels linux.2xlarge" +:+ "" +:+ "")
               (Some "acme") None rt;
           response := RDone |} ] ++
      List.concat others /\
    Forall (fun ev => (is_token_call (call ev) || is_create_runner (call ev))
                      = false) before /\
    Forall2 (provisioned_once env_default (acme_widgets 0) client five_tracked)
      (tl runnerTypes) others /\
    Forall (fun ev => ~ creates rt (call ev)) (List.concat others).
Proof.
  eexists.
  destruct (scenario_all_busy_provisions
              (mock "queued" five_tracked (three_live true)) env_default
              "aws:sqs" (acme_widgets 0) [] (snd (run_scenario true))
              (Client 2) 7 "acme" "widgets" (Some "prod") None five_tracked
              _ eq_refl eq_refl eq_refl eq_refl (or_introl eq_refl))
    as (client & before & tok & others & H).
  - vm_compute. reflexivity.
  - vm_compute. do 5 right. left. reflexivity.
  - vm_compute. do 6 right. left. reflexivity.
  - vm_compute. reflexivity.
  - exists client, before, tok, others. split; [left; reflexivity|exact H].
Defined.

Lemma installation_lookup_once_witness :
  (exists a client resolved answer rest,
     events (snd (run_scenario true)) =
       [ appAuthEvent env_default (RAuth a);
         clientEvent env_default (token a) (RClient client);
         lookupEvent env_default (acme_widgets 0) client
           (RInstallation resolved);
         installationAuthEvent env_default resolved answer ] ++ rest /\
     is_lookup (lookupCall env_default (acme_widgets 0) client) = true /\
     Forall (fun ev => is_lookup (call ev) = false) rest) /\
  Forall (fun ev => is_lookup (call ev) = false)
    (events (snd (scaleUp (mock "queued" five_tracked (three_live true))
                    env_default "aws:sqs" (acme_widgets 42) []))).
Proof.
  split.
  - destruct (installation_lookup_once
                (mock "queued" five_tracked (three_live true)) env_default
                "aws:sqs" (acme_widgets 0) [] (fst (run_scenario true))
                (snd (run_scenario true)) (surjective_pairing _))
      as (_ & Hlookup & Hreached & _).
    apply Hlookup; [reflexivity|]. apply Hreached. vm_compute. reflexivity.
  - destruct (installation_lookup_once
                (mock "queued" five_tracked (three_live true)) env_default
                "aws:sqs" (acme_widgets 42) [] _ _ (surjective_pairing _))
      as (Hnone & _).
    apply Hnone. discriminate.
Defined.

(* ================================================================== *)
(** ** The paths of an invocation *)

Section Paths.

Context (w : World) (env : ProcessEnv) (payload : ActionRequestMessage).

Lemma scaleUp_installation_phase h r e :
  scaleUp_installation w env payload h = (r, e) ->
  lookup_phase env payload r (events e) /\ tasks e = [] /\ logs e = [].
Proof.
  intros H. apply scaleUp_installation_shape in H as (Ht & Hl & H).
  split; [|now split].
  destruct (installationId payload =? 0)%Z eqn:Hid.
  - apply Z.eqb_eq in Hid.
    destruct H as [(err & -> & ->) | [(a & err & -> & ->) | (a & c & ->)]].
    + now constructor.
    + now constructor.
    + destruct r as [resolved | err]; now constructor.
  - apply Z.eqb_neq in Hid. destruct H as (-> & ->). now constructor.
Qed.

Lemma scaleUp_client_phase resolved h r e :
  scaleUp_client w env payload resolved h = (r, e) ->
  client_phase env payload resolved r (events e) /\
  tasks e = [] /\ logs e = [].
Proof.
  intros H. apply scaleUp_client_shape in H as (Ht & Hl & H).
  split; [|now split].
  destruct H as [(err & -> & ->) | [(a & err & -> & ->) |
                 [(a & c & err & -> & ->) | (a & c & s & -> & ->)]]];
    constructor.
Qed.

(** The task of an admission check. *)
Lemma allRunnersBusy_promise_task k h :
  exists t,
    allRunnersBusy_promise w k (repositoryOwner payload)
      (repositoryName payload) (enableOrgLevel env) h =
      (Ok (PromiseOf t), {| events := []; tasks := [t]; logs := [] |}) /\
    admission_task w env payload k t.
Proof.
  destruct (allRunnersBusy_promise_run w k (repositoryOwner payload)
              (repositoryName payload) (enableOrgLevel env) h)
    as (t0 & _ & _ & Hrun0).
  unfold allRunnersBusy_promise.
  destruct (allRunnersBusy w k (repositoryOwner payload)
              (repositoryName payload) (enableOrgLevel env) h)
    as [r [evs ts ls]] eqn:Hrun.
  injection Hrun0 as _ _ Hts _. subst ts.
  eexists. split; [reflexivity|].
  unfold admission_task. simpl. repeat split. now exists h.
Qed.

(** One turn of the loop, with its task. *)
Lemma scaleUp_runnerType_turn c currentRunners k rt h r e :
  scaleUp_runnerType w env payload c currentRunners k rt h = (r, e) ->
  logs e = [] /\
  if below_ceiling currentRunners (k, rt) then
    exists t,
      tasks e = [t] /\ admission_task w env payload k t /\
      ((exists err,
          r = Throw err /\
          events e = [ {| call := tokenCall env payload c;
                          response := RError err |} ]) \/
       (exists tok err,
          r = Throw err /\
          events e = [ {| call := tokenCall env payload c;
                          response := RToken tok |};
                       {| call := createCall env payload tok k rt;
                          response := RError err |} ]) \/
       (exists tok,
          r = Ok tt /\
          events e = [ {| call := tokenCall env payload c;
                          response := RToken tok |};
                       {| call := createCall env payload tok k rt;
                          response := RDone |} ]))
  else r = Ok tt /\ e = no_effects.
Proof.
  intros H. pose proof H as Hshape.
  apply scaleUp_runnerType_shape in Hshape as (Hlog & Hshape).
  split; [assumption|].
  destruct (below_ceiling currentRunners (k, rt)) eqn:Hbelow; [|assumption].
  destruct Hshape as ((t & Ht & _) & Hcalls).
  exists t. split; [assumption|]. split.
  - unfold scaleUp_runnerType in H. unfold below_ceiling in Hbelow.
    simpl in Hbelow. rewrite Hbelow in H. cbv zeta in H.
    destruct (allRunnersBusy_promise_task k h) as (t' & Ht' & Htask).
    run_bind H as p ep e1 Hp; rewrite Ht' in Hp; [discriminate|].
    injection Hp as <- <-. simpl in Ht.
    destruct (tasks e1) as [|x l]; simpl in Ht; [|destruct l; discriminate].
    now injection Ht as <-.
  - destruct Hcalls as [(err & -> & ->) | (tok & ->)].
    + left. now exists err.
    + right. destruct r as [[] | err].
      * right. now exists tok.
      * left. now exists tok, err.
Qed.

(** The turns of a loop. *)
Lemma forIn_turns c currentRunners dict : forall h r e,
  forIn dict (scaleUp_runnerType w env payload c currentRunners) h = (r, e) ->
  logs e = [] /\
  exists per,
    events e = List.concat per /\
    turns w env payload c currentRunners dict r per (tasks e).
Proof.
  induction dict as [|[k rt] rest IH]; intros h r e H; simpl in H.
  - unfold ret in H. injection H as <- <-. split; [reflexivity|].
    exists []. split; [reflexivity|constructor].
  - run_bind H as u e1 e2 Hturn.
    + apply scaleUp_runnerType_turn in Hturn as (Hlog & Hturn).
      split; [assumption|].
      destruct (below_ceiling currentRunners (k, rt)) eqn:Hbelow.
      * destruct Hturn as (t & -> & Htask &
            [(x & [= <-] & ->) | [(tok & x & [= <-] & ->) | (tok & [=] & _)]]).
        -- eexists [[_]]. split; [reflexivity|]. now constructor.
        -- eexists [[_; _]]. split; [reflexivity|]. now constructor.
      * destruct Hturn as ([=] & _).
    + apply scaleUp_runnerType_turn in Hturn as (Hlog & Hturn).
      apply IH in H as (Hlogs & per & Hev & Hturns).
      simpl. rewrite Hlog, Hlogs. split; [reflexivity|].
      destruct (below_ceiling currentRunners (k, rt)) eqn:Hbelow.
      * destruct Hturn as (t & -> & Htask &
            [(x & [=] & _) | [(tok & x & [=] & _) | (tok & _ & ->)]]).
        eexists ([_; _] :: per). simpl. rewrite Hev. split; [reflexivity|].
        now constructor.
      * destruct Hturn as (_ & ->). exists ([] :: per). simpl.
        split; [assumption|]. now constructor.
Qed.

(** An invocation on an event from SQS takes one of the paths. *)
Lemma scaleUp_invocation h r e :
  scaleUp w env "aws:sqs" payload h = (r, e) ->
  invocation w env payload r (events e) (tasks e) (logs e).
Proof.
  rewrite scaleUp_run. simpl negb. cbv iota. intros H.
  run_bind H as cs e0 eq Hcs.
  - unfold scaleUp_checkRun in Hcs. run_bind Hcs as resolved ei ec Hi.
    + match goal with Hx : Throw _ = Throw _ |- _ => injection Hx as -> end.
      apply scaleUp_installation_phase in Hi as (Hi & -> & ->).
      now constructor.
    + apply scaleUp_installation_phase in Hi as (Hi & Hti & Hli).
      apply scaleUp_client_phase in Hcs as (Hc & Htc & Hlc).
      simpl. rewrite Hti, Hli, Htc, Hlc. simpl.
      eapply invocation_no_check_run; eassumption.
  - unfold scaleUp_checkRun in Hcs. run_bind Hcs as resolved ei ec Hi.
    apply scaleUp_installation_phase in Hi as (Hi & Hti & Hli).
    apply scaleUp_client_phase in Hcs as (Hc & Htc & Hlc).
    destruct cs as [c s]. simpl in H.
    destruct (s =? "queued") eqn:Hs.
    + apply String.eqb_eq in Hs. subst s.
      unfold scaleUp_queued in H; cbv zeta in H.
      run_bind H as cur el e3 Hcur.
      * run_await Hcur. simpl. rewrite Hti, Hli, Htc, Hlc. simpl.
        rewrite <- app_assoc.
        eapply invocation_no_inventory; eassumption.
      * run_await Hcur. run_bind H as u eu e4 Hu; [discriminate|].
        unfold console_info in Hu. injection Hu as _ <-.
        apply forIn_turns in H as (Hl4 & per & Hev & Hturns).
        simpl. rewrite Hti, Hli, Htc, Hlc, Hl4, Hev. simpl.
        rewrite <- app_assoc. simpl.
        eapply invocation_loop; eassumption.
    + apply String.eqb_neq in Hs. unfold ret in H. injection H as <- <-.
      simpl. rewrite Hti, Hli, Htc, Hlc, !app_nil_r. simpl.
      eapply invocation_not_queued; eassumption.
Qed.

End Paths.

(* ================================================================== *)
(** ** What every call of an invocation is *)

(** The calls of [allRunnersBusy]: the client, then the list of the live
    runners with this client; the verdict on what was listed. *)
Lemma allRunnersBusy_shape w k org repo orgLevel h r e :
  allRunnersBusy w k org repo orgLevel h = (r, e) ->
  tasks e = [] /\
  ((exists err,
      r = Throw err /\ logs e = [] /\
      events e = [ {| call := CreateGitHubClientForRunner org repo orgLevel;
                      response := RError err |} ]) \/
   (exists c err,
      r = Throw err /\ logs e = [] /\
      events e = [ {| call := CreateGitHubClientForRunner org repo orgLevel;
                      response := RClient c |};
                   {| call := ListGithubRunners c org repo orgLevel;
                      response := RError err |} ]) \/
   (exists c ghRunners,
      r = Ok (forallb busy (runnersWithLabel k ghRunners)) /\
      logs e = [found_line k ghRunners] /\
      events e = [ {| call := CreateGitHubClientForRunner org repo orgLevel;
                      response := RClient c |};
                   {| call := ListGithubRunners c org repo orgLevel;
                      response := RGhRunners ghRunners |} ])).
Proof.
  unfold allRunnersBusy. intros H. run_bind H as c ec e1 Hc.
  { run_await Hc. split; [reflexivity|]. left. now exists err. }
  run_await Hc. run_bind H as l el e2 Hl.
  { run_await Hl. split; [reflexivity|]. right; left. now exists c, err. }
  run_await Hl. run_bind H as u eu e3 Hu; [discriminate|].
  unfold console_info in Hu. injection Hu as _ <-.
  unfold ret in H. injection H as <- <-.
  split; [reflexivity|]. right; right. now exists c, l.
Qed.

Section Calls.

Context (env : ProcessEnv) (payload : ActionRequestMessage)
        (P : Call -> Prop).

Hypothesis P_appAuth :
  P (CreateGithubAuth None "app" (ghesApiUrl_of (GHES_URL env))).
Hypothesis P_client :
  forall tok, P (CreateOctoClient tok (ghesApiUrl_of (GHES_URL env))).
Hypothesis P_lookup : forall c, P (lookupCall env payload c).
Hypothesis P_installationAuth :
  forall resolved,
    P (CreateGithubAuth (Some resolved) "installation"
         (ghesApiUrl_of (GHES_URL env))).
Hypothesis P_checkRun :
  forall c, P (ChecksGet c (id payload) (repositoryOwner payload)
                 (repositoryName payload)).
Hypothesis P_listRunners :
  P (ListRunners (ENVIRONMENT env) (repoName_of env payload)).
Hypothesis P_token : forall c, P (tokenCall env payload c).
Hypothesis P_create :
  forall tok k rt, In (k, rt) runnerTypes -> P (createCall env payload tok k rt).

Lemma lookup_phase_calls r l :
  lookup_phase env payload r l -> Forall (fun ev => P (call ev)) l.
Proof.
  intros []; repeat constructor; simpl;
    auto using P_appAuth, P_client, P_lookup.
Qed.

Lemma client_phase_calls resolved r l :
  client_phase env payload resolved r l -> Forall (fun ev => P (call ev)) l.
Proof.
  intros []; repeat constructor; simpl;
    auto using P_installationAuth, P_client, P_checkRun.
Qed.

Lemma turns_calls w c currentRunners dict r per ts :
  incl dict runnerTypes ->
  turns w env payload c currentRunners dict r per ts ->
  Forall (fun ev => P (call ev)) (List.concat per).
Proof.
  intros Hincl Hturns.
  induction Hturns as [| k rt rest r per ts Hb _ IH | k rt rest err t Hb Ht
                       | k rt rest tok err t Hb Ht
                       | k rt rest tok t r per ts Hb Ht _ IH]; simpl.
  - constructor.
  - apply IH. intros x Hx. apply Hincl. now right.
  - repeat constructor. simpl. apply P_token.
  - repeat constructor; simpl; [apply P_token|].
    apply P_create, Hincl. now left.
  - constructor; [apply P_token|]. constructor.
    + apply P_create, Hincl. now left.
    + apply IH. intros x Hx. apply Hincl. now right.
Qed.

Lemma invocation_calls w r evs ts ls :
  invocation w env payload r evs ts ls -> Forall (fun ev => P (call ev)) evs.
Proof.
  intros [err li Hi | resolved li err lc Hi Hc | resolved li c s lc Hi Hc _
          | resolved li c lc err Hi Hc
          | resolved li c lc cur r' per ts' Hi Hc Hturns].
  - eapply lookup_phase_calls; eassumption.
  - apply Forall_app. split;
      [eapply lookup_phase_calls | eapply client_phase_calls]; eassumption.
  - apply Forall_app. split;
      [eapply lookup_phase_calls | eapply client_phase_calls]; eassumption.
  - apply Forall_app. split; [eapply lookup_phase_calls; eassumption|].
    apply Forall_app. split; [eapply client_phase_calls; eassumption|].
    apply Forall_cons; [apply P_listRunners | apply Forall_nil].
  - apply Forall_app. split; [eapply lookup_phase_calls; eassumption|].
    apply Forall_app. split; [eapply client_phase_calls; eassumption|].
    apply Forall_cons; [apply P_listRunners|].
    eapply turns_calls; [|eassumption]. intros x Hx. exact Hx.
Qed.

End Calls.

(** An event that does not come from SQS. *)
Lemma unsupported_source w env src payload h :
  src <> "aws:sqs" ->
  scaleUp w env src payload h = (Throw UnsupportedTransport, no_effects).
Proof.
  intros Hsrc. unfold scaleUp.
  apply String.eqb_neq in Hsrc. now rewrite Hsrc.
Qed.

Lemma scaleUp_cases w env src payload h r e :
  scaleUp w env src payload h = (r, e) ->
  (src <> "aws:sqs" /\ r = Throw UnsupportedTransport /\ e = no_effects) \/
  invocation w env payload r (events e) (tasks e) (logs e).
Proof.
  intros H. destruct (String.eqb_spec src "aws:sqs") as [-> | Hsrc].
  - right. now apply scaleUp_invocation with h.
  - left. rewrite (unsupported_source w env src payload h Hsrc) in H.
    now injection H as <- <-.
Qed.

(** The tasks of an invocation are admission checks of runner types of
    the table. *)
Lemma turns_tasks w env payload c currentRunners dict r per ts :
  turns w env payload c currentRunners dict r per ts ->
  Forall (fun t => admission_task w env payload (task_runnerType t) t /\
                   exists rt, In (task_runnerType t, rt) dict /\
                     below_ceiling currentRunners (task_runnerType t, rt)
                     = true) ts.
Proof.
  assert (Hkey : forall k t, admission_task w env payload k t ->
                             task_runnerType t = k).
  { now intros k t (Hk & _). }
  induction 1 as [| k rt rest r per ts Hb _ IH | k rt rest err t Hb Ht
                  | k rt rest tok err t Hb Ht
                  | k rt rest tok t r per ts Hb Ht _ IH].
  - constructor.
  - eapply Forall_impl; [|exact IH]. simpl. intros t (Ht & rt' & Hin & Hb').
    split; [assumption|]. exists rt'. split; [now right|assumption].
  - apply Forall_cons; [|apply Forall_nil].
    rewrite (Hkey k t Ht). split; [assumption|].
    exists rt. split; [now left|assumption].
  - apply Forall_cons; [|apply Forall_nil].
    rewrite (Hkey k t Ht). split; [assumption|].
    exists rt. split; [now left|assumption].
  - constructor.
    + rewrite (Hkey k t Ht). split; [assumption|].
      exists rt. split; [now left|assumption].
    + eapply Forall_impl; [|exact IH]. simpl.
      intros t' (Ht' & rt' & Hin & Hb').
      split; [assumption|]. exists rt'. split; [now right|assumption].
Qed.

Lemma invocation_tasks w env payload r evs ts ls :
  invocation w env payload r evs ts ls ->
  Forall (fun t => admission_task w env payload (task_runnerType t) t /\
                   exists rt, In (task_runnerType t, rt) runnerTypes) ts.
Proof.
  intros [err li Hi | resolved li err lc Hi Hc | resolved li c s lc Hi Hc _
          | resolved li c lc err Hi Hc
          | resolved li c lc cur r' per ts' Hi Hc Hturns];
    try constructor.
  apply turns_tasks in Hturns.
  eapply Forall_impl; [|exact Hturns]. simpl.
  intros t (Ht & rt & Hin & _). split; [assumption|]. now exists rt.
Qed.

(** The calls of an admission task. *)
Lemma admission_task_calls w env payload k t (P : Call -> Prop) :
  P (CreateGitHubClientForRunner (repositoryOwner payload)
       (repositoryName payload) (enableOrgLevel env)) ->
  (forall c, P (ListGithubRunners c (repositoryOwner payload)
                  (repositoryName payload) (enableOrgLevel env))) ->
  admission_task w env payload k t ->
  Forall (fun ev => P (call ev)) (task_events t).
Proof.
  intros Pc Pl (_ & _ & _ & _ & h & Hrun).
  apply allRunnersBusy_shape in Hrun
    as (_ & [(err & _ & _ & Hev) | [(c & err & _ & _ & Hev)
                                    | (c & l & _ & _ & Hev)]]);
    simpl in Hev; rewrite Hev; repeat constructor; simpl; auto.
Qed.

(* ================================================================== *)
(** ** Further properties *)

(** X1.  Every call of an invocation, and of its admission checks, keeps to
    one scope: at organization level the lookup and the registration tokens
    are those of the organization of the message and the runners are
    created for it; otherwise they are those of its repository; the
    admission checks list the live runners of the same owner, repository
    and level. *)
Theorem calls_keep_scope w env src payload h :
  Forall (fun ev => scope_kept env payload (call ev))
    (events (snd (scaleUp w env src payload h))) /\
  Forall (fun t => Forall (fun ev => scope_kept env payload (call ev))
                     (task_events t))
    (tasks (snd (scaleUp w env src payload h))).
Proof.
  destruct (scaleUp w env src payload h) as [r e] eqn:H. simpl.
  apply scaleUp_cases in H as [(_ & _ & ->) | H]; [split; constructor|].
  split.
  - apply (invocation_calls env payload (scope_kept env payload)) in H;
      try assumption; simpl; auto.
    + intros c. unfold lookupCall.
      destruct (enableOrgLevel env) eqn:Horg; simpl; auto.
    + intros c. unfold tokenCall.
      destruct (enableOrgLevel env) eqn:Horg; simpl; auto.
  - apply invocation_tasks in H.
    eapply Forall_impl; [|exact H]. simpl. intros t (Ht & _).
    apply (admission_task_calls w env payload (task_runnerType t) t
             (scope_kept env payload)); simpl; auto.
Qed.

(** X2.  Every call of an invocation is addressed as the environment and
    the message say: the authentications and the clients go to the API of
    [GHES_URL] (its [/api/v3] when set, the public one otherwise), the
    authentications are as app or as installation, the check run asked for
    is the one of the message, and the inventory and the launcher get the
    [ENVIRONMENT]. *)
Theorem calls_are_addressed w env src payload h :
  Forall (fun ev => addressed env payload (call ev))
    (events (snd (scaleUp w env src payload h))).
Proof.
  destruct (scaleUp w env src payload h) as [r e] eqn:H. simpl.
  apply scaleUp_cases in H as [(_ & _ & ->) | H]; [constructor|].
  apply (invocation_calls env payload (addressed env payload)) in H;
    try assumption; simpl; auto.
  - intros c. unfold lookupCall. now destruct (enableOrgLevel env).
  - intros c. unfold tokenCall. now destruct (enableOrgLevel env).
Qed.



Ltac all_answered :=
  repeat (apply Forall_cons; [intros ?; discriminate|]); apply Forall_nil.






Lemma phases_not_fleet env payload P :
  (forall ev, fleet_or_provisioning (call ev) = false -> P ev) ->
  (forall r l, lookup_phase env payload r l -> Forall P l) /\
  (forall resolved r l, client_phase env payload resolved r l -> Forall P l).
Proof.
  intros HP. split.
  - intros r l []; repeat (apply Forall_cons; [apply HP|]);
      try apply Forall_nil; try reflexivity.
    all: simpl; unfold lookupCall; now destruct (enableOrgLevel env).
  - intros resolved r l []; repeat (apply Forall_cons; [apply HP|]);
      try apply Forall_nil; reflexivity.
Qed.

(** X4.  Nothing is listed or provisioned, and no admission check is
    started, unless the check run was answered as queued: an invocation
    with such a call or task has asked for the check run of the message
    before, with no such call earlier, and got the status ["queued"]. *)
Theorem provisioning_requires_queued w env src payload h r e :
  scaleUp w env src payload h = (r, e) ->
  Exists (fun ev => fleet_or_provisioning (call ev) = true) (events e) \/
  tasks e <> [] ->
  exists before c after,
    events e =
      before ++ checkRunEvent payload c (RCheckRun "queued") :: after /\
    Forall (fun ev => fleet_or_provisioning (call ev) = false) before.
Proof.
  intros H Hsome.
  destruct (phases_not_fleet env payload
              (fun ev => fleet_or_provisioning (call ev) = false)
              (fun ev Hev => Hev)) as (Hlookup & Hclient).
  assert (Hnone : forall l,
            Forall (fun ev => fleet_or_provisioning (call ev) = false) l ->
            Exists (fun ev => fleet_or_provisioning (call ev) = true) l \/
            @nil Task <> [] -> False).
  { intros l Hl [Hex | Hts]; [|now apply Hts].
    apply Exists_exists in Hex as (ev & Hin & Hev).
    rewrite Forall_forall in Hl. rewrite (Hl ev Hin) in Hev. discriminate. }
  apply scaleUp_cases in H as [(_ & _ & ->) | H].
  { destruct Hsome as [Hex | Hts]; [inversion Hex | now elim Hts]. }
  destruct H as [err li Hi | resolved li err lc Hi Hc
                 | resolved li c s lc Hi Hc _
                 | resolved li c lc err Hi Hc
                 | resolved li c lc cur r' per ts' Hi Hc Hturns].
  - elim (Hnone li); eauto.
  - elim (Hnone (li ++ lc)); [apply Forall_app|]; eauto.
  - elim (Hnone (li ++ lc)); [apply Forall_app|]; eauto.
  - apply Hlookup in Hi. inversion Hc as [| | |a c' s' Hs Hlc]; subst.
    eexists (li ++ [_; _]), c, _. rewrite <- app_assoc. simpl.
    split; [reflexivity|]. apply Forall_app. split; [assumption|].
    repeat (apply Forall_cons; [reflexivity|]). apply Forall_nil.
  - apply Hlookup in Hi. inversion Hc as [| | |a c' s' Hs Hlc]; subst.
    eexists (li ++ [_; _]), c, _. rewrite <- app_assoc. simpl.
    split; [reflexivity|]. apply Forall_app. split; [assumption|].
    repeat (apply Forall_cons; [reflexivity|]). apply Forall_nil.
Qed.

Lemma provisioning_requires_queued_witness :
  exists before c after,
    events (snd (run_scenario false)) =
      before ++ checkRunEvent (acme_widgets 0) c (RCheckRun "queued")
      :: after /\
    Forall (fun ev => fleet_or_provisioning (call ev) = false) before.
Proof.
  apply (provisioning_requires_queued
           (mock "queued" five_tracked (three_live false)) env_default
           "aws:sqs" (acme_widgets 0) [] (fst (run_scenario false))
           (snd (run_scenario false)) (surjective_pairing _)).
  right. vm_compute. discriminate.
Defined.

(** The create-runner call of a turn comes right after the registration
    token it uses. *)
Lemma turns_handshake w env payload c currentRunners dict r per ts ev :
  turns w env payload c currentRunners dict r per ts ->
  In ev (List.concat per) ->
  is_create_runner (call ev) = true ->
  exists before tok k rt after,
    List.concat per =
      before ++
      [ {| call := tokenCall env payload c; response := RToken tok |}; ev ]
      ++ after /\
    call ev = createCall env payload tok k rt /\
    In (k, rt) dict /\
    below_ceiling currentRunners (k, rt) = true.
Proof.
  assert (Htoken : is_create_runner (tokenCall env payload c) = false).
  { unfold tokenCall. now destruct (enableOrgLevel env). }
  induction 1 as [| k rt rest r per ts Hb _ IH | k rt rest err t Hb Ht
                  | k rt rest tok err t Hb Ht
                  | k rt rest tok t r per ts Hb Ht _ IH];
    intros Hin Hcreate; simpl in Hin.
  - destruct Hin.
  - destruct (IH Hin Hcreate) as (before & tok & k' & rt' & after & Heq & Hc
                                  & Hin' & Hb').
    exists before, tok, k', rt', after. simpl. repeat split; try assumption.
    now right.
  - destruct Hin as [<- | []]. simpl in Hcreate. congruence.
  - destruct Hin as [<- | [<- | []]]; simpl in Hcreate; [congruence|].
    exists [], tok, k, rt, []. repeat split; [now left | assumption].
  - destruct Hin as [<- | [<- | Hin]]; simpl in Hcreate; [congruence| |].
    + exists [], tok, k, rt, (List.concat per).
      repeat split; [now left | assumption].
    + destruct (IH Hin Hcreate) as (before & tok' & k' & rt' & after & Heq
                                    & Hc & Hin' & Hb').
      eexists (_ :: _ :: before), tok', k', rt', after. simpl.
      rewrite Heq. repeat split; try assumption. now right.
Qed.

(** X5.  Every runner is created with a registration token of its own: a
    create-runner call, in any invocation, comes right after a call for a
    registration token that was answered, its configuration is composed
    with this token for a runner type of the table below its ceiling, and
    the token was asked for by the client that got the check run as
    queued. *)
Theorem runner_is_created_with_its_token w env src payload h r e ev :
  scaleUp w env src payload h = (r, e) ->
  In ev (events e) ->
  is_create_runner (call ev) = true ->
  exists before c tok k rt after,
    events e =
      before ++
      [ {| call := tokenCall env payload c; response := RToken tok |}; ev ]
      ++ after /\
    call ev = createCall env payload tok k rt /\
    In (k, rt) runnerTypes /\
    In (checkRunEvent payload c (RCheckRun "queued")) before.
Proof.
  intros H Hin Hcreate.
  destruct (phases_not_fleet env payload
              (fun ev => is_create_runner (call ev) = false)) as (Hl & Hc').
  { intros x Hx. unfold fleet_or_provisioning in Hx.
    now apply orb_false_iff in Hx as (_ & Hx). }
  assert (Hnot : forall l,
            Forall (fun ev => is_create_runner (call ev) = false) l ->
            In ev l -> False).
  { intros l Hall Hinl. rewrite Forall_forall in Hall.
    rewrite (Hall ev Hinl) in Hcreate. discriminate. }
  apply scaleUp_cases in H as [(_ & _ & ->) | H]; [destruct Hin|].
  destruct H as [err li Hi | resolved li err lc Hi Hc
                 | resolved li c s lc Hi Hc _
                 | resolved li c lc err Hi Hc
                 | resolved li c lc cur r' per ts' Hi Hc Hturns].
  - elim (Hnot li); eauto.
  - elim (Hnot (li ++ lc)); [apply Forall_app|]; eauto.
  - elim (Hnot (li ++ lc)); [apply Forall_app|]; eauto.
  - elim (Hnot (li ++ lc ++ [listRunnersEvent env payload (RError err)]));
      [|assumption].
    apply Forall_app. split; [eauto|]. apply Forall_app. split; [eauto|].
    now repeat constructor.
  - assert (Hloop : In ev (List.concat per)).
    { apply in_app_or in Hin as [Hin | Hin]; [elim (Hnot li); eauto|].
      apply in_app_or in Hin as [Hin | Hin]; [elim (Hnot lc); eauto|].
      destruct Hin as [<- | Hin]; [discriminate | assumption]. }
    destruct (turns_handshake w env payload c cur runnerTypes r' per ts' ev
                Hturns Hloop Hcreate)
      as (before & tok & k & rt & after & Heq & Hcall & Hk & _).
    exists (li ++ lc ++ listRunnersEvent env payload (RRunners cur) :: before),
      c, tok, k, rt, after.
    rewrite Heq. repeat split; try assumption.
    + rewrite <- !app_assoc. reflexivity.
    + apply in_or_app. right. apply in_or_app. left.
      inversion Hc; subst. do 2 right. now left.
Qed.

Lemma runner_is_created_with_its_token_witness :
  exists ev,
    nth_error (events (snd (run_scenario true))) 8 = Some ev /\
    is_create_runner (call ev) = true /\
    exists before c tok k rt after,
      events (snd (run_scenario true)) =
        before ++
        [ {| call := tokenCall env_default (acme_widgets 0) c;
             response := RToken tok |}; ev ] ++ after /\
      call ev = createCall env_default (acme_widgets 0) tok k rt /\
      In (k, rt) runnerTypes /\
      In (checkRunEvent (acme_widgets 0) c (RCheckRun "queued")) before.
Proof.
  eexists. split; [vm_compute; reflexivity|]. split; [reflexivity|].
  apply (runner_is_created_with_its_token
           (mock "queued" five_tracked (three_live true)) env_default
           "aws:sqs" (acme_widgets 0) [] (fst (run_scenario true))
           (snd (run_scenario true)) _ (surjective_pairing _)).
  - vm_compute. do 8 right. left. reflexivity.
  - reflexivity.
Defined.

(* ================================================================== *)
(** ** The runners created and the admission checks started *)

Lemma created_app l1 l2 : created (l1 ++ l2) = created l1 ++ created l2.
Proof. apply flat_map_app. Qed.

Lemma created_none l :
  Forall (fun ev => is_create_runner (call ev) = false) l -> created l = [].
Proof.
  induction 1 as [|ev l Hev _ IH]; [reflexivity|].
  unfold created in *. simpl. rewrite IH.
  destruct (call ev); try reflexivity; discriminate.
Qed.

Lemma NoDup_firstn {A} n (l : list A) : NoDup l -> NoDup (firstn n l).
Proof.
  revert n. induction l as [|a l IH]; intros [|n] H; simpl;
    try constructor.
  - inversion H as [|? ? Hnotin Hl]; subst. intros Hin. apply Hnotin.
    clear - Hin. revert n Hin.
    induction l as [|b l IHl]; intros [|n] Hin; simpl in Hin;
      try contradiction.
    destruct Hin as [-> | Hin]; [now left | right; eauto].
  - inversion H; subst. now apply IH.
Qed.

Lemma NoDup_map_filter {A B} (f : A -> B) (p : A -> bool) l :
  NoDup (map f l) -> NoDup (map f (filter p l)).
Proof.
  induction l as [|a l IH]; simpl; intros H; [constructor|].
  inversion H as [|? ? Hnotin Hl]; subst.
  destruct (p a); simpl; [|now apply IH].
  constructor; [|now apply IH].
  intros Hin. apply Hnotin. apply in_map_iff in Hin as (x & Hx & Hin).
  apply filter_In in Hin as (Hin & _). apply in_map_iff. now exists x.
Qed.

Lemma incl_firstn {A} n (l : list A) : incl (firstn n l) l.
Proof.
  revert n. induction l as [|a l IH]; intros [|n] x Hx; simpl in Hx;
    try contradiction.
  destruct Hx as [-> | Hx]; [now left | right; exact (IH n x Hx)].
Qed.

Lemma runnerTypes_keys_distinct : NoDup (map fst runnerTypes).
Proof.
  unfold runnerTypes. simpl.
  repeat (apply NoDup_cons; [simpl; intuition discriminate|]).
  apply NoDup_nil.
Qed.

(** The loop serves the entries below their ceiling in the order of the
    table, as far as it gets: a runner for the first [n] of them, an
    admission check for these and, when a call of the next one was
    rejected, for that one too. *)
Lemma turns_served w env payload c currentRunners dict r per ts :
  turns w env payload c currentRunners dict r per ts ->
  exists n m,
    created (List.concat per) =
      firstn n (map snd (filter (below_ceiling currentRunners) dict)) /\
    map task_runnerType ts =
      firstn m (map fst (filter (below_ceiling currentRunners) dict)) /\
    List.length ts = m /\ n <= m <= S n /\
    List.length (filter (fun ev => is_token_call (call ev))
                   (List.concat per)) = m /\
    (r = Ok tt ->
     n = List.length (filter (below_ceiling currentRunners) dict) /\ m = n).
Proof.
  assert (Htoken : forall l,
            created ({| call := tokenCall env payload c;
                        response := l |} :: nil) = [] /\
            is_token_call (tokenCall env payload c) = true).
  { intros l. unfold created, tokenCall. simpl.
    now destruct (enableOrgLevel env). }
  induction 1 as [| k rt rest r per ts Hb _ IH | k rt rest err t Hb Ht
                  | k rt rest tok err t Hb Ht
                  | k rt rest tok t r per ts Hb Ht _ IH].
  - exists 0, 0. simpl. repeat split; lia.
  - destruct IH as (n & m & Hc & Ht & Hlen & Hnm & Htok & Hok).
    exists n, m. simpl. rewrite Hb. repeat split; try assumption; try lia;
      match goal with Hr : _ = Ok tt |- _ => destruct (Hok Hr); lia end.
  - exists 0, 1. simpl. rewrite Hb. destruct Ht as (-> & _).
    destruct (Htoken (RError err)) as (Hcr & Htk). simpl in Hcr.
    rewrite Htk. simpl. unfold created. simpl.
    unfold created in Hcr. simpl in Hcr. rewrite Hcr.
    repeat split; (lia || discriminate).
  - exists 1, 1. simpl. rewrite Hb. destruct Ht as (-> & _).
    destruct (Htoken (RToken tok)) as (Hcr & Htk).
    rewrite Htk. unfold created in *. simpl in *.
    apply app_eq_nil in Hcr as (Hcr & _). rewrite Hcr.
    repeat split; (lia || discriminate).
  - destruct IH as (n & m & Hc & Hts & Hlen & Hnm & Htok & Hok).
    exists (S n), (S m). simpl. rewrite Hb. destruct Ht as (-> & _).
    destruct (Htoken (RToken tok)) as (Hcr & Htk).
    rewrite Htk. simpl. unfold created in *. simpl in *.
    apply app_eq_nil in Hcr as (Hcr & _). rewrite Hcr. simpl.
    rewrite Hc, Hts, Hlen, Htok. repeat split; try lia;
      match goal with Hr : _ = Ok tt |- _ => destruct (Hok Hr); lia end.
Qed.

(** An invocation in which the inventory answered is on the path of the
    loop, which ran on what the inventory answered. *)
Lemma invocation_listed w env payload r evs ts ls environment repoName
    currentRunners :
  invocation w env payload r evs ts ls ->
  In {| call := ListRunners environment repoName;
        response := RRunners currentRunners |} evs ->
  exists resolved li c lc per,
    lookup_phase env payload (Ok resolved) li /\
    client_phase env payload resolved (Ok (c, "queued")) lc /\
    turns w env payload c currentRunners runnerTypes r per ts /\
    evs = li ++ lc ++
          listRunnersEvent env payload (RRunners currentRunners)
          :: List.concat per /\
    ls = [runners_line env payload currentRunners].
Proof.
  intros H Hin.
  destruct (phases_not_fleet env payload
              (fun ev => is_tracked_list (call ev) = false)) as (Hl & Hc').
  { intros x Hx. unfold fleet_or_provisioning in Hx.
    apply orb_false_iff in Hx as (Hx & _).
    apply orb_false_iff in Hx as (Hx & _).
    now apply orb_false_iff in Hx as (Hx & _). }
  assert (Hnot : forall l,
            Forall (fun ev => is_tracked_list (call ev) = false) l ->
            In {| call := ListRunners environment repoName;
                  response := RRunners currentRunners |} l -> False).
  { intros l Hall Hinl. rewrite Forall_forall in Hall.
    apply Hall in Hinl. discriminate. }
  destruct H as [err li Hi | resolved li err lc Hi Hc
                 | resolved li c s lc Hi Hc _
                 | resolved li c lc err Hi Hc
                 | resolved li c lc cur r' per ts' Hi Hc Hturns].
  - elim (Hnot li); eauto.
  - elim (Hnot (li ++ lc)); [apply Forall_app|]; eauto.
  - elim (Hnot (li ++ lc)); [apply Forall_app|]; eauto.
  - apply in_app_or in Hin as [Hin | Hin]; [elim (Hnot li); eauto|].
    apply in_app_or in Hin as [Hin | [Hin | []]]; [elim (Hnot lc); eauto|].
    discriminate.
  - apply in_app_or in Hin as [Hin | Hin]; [elim (Hnot li); eauto|].
    apply in_app_or in Hin as [Hin | Hin]; [elim (Hnot lc); eauto|].
    destruct Hin as [Heq | Hin].
    + injection Heq as _ _ ->. now exists resolved, li, c, lc, per.
    + exfalso. apply (Hnot (List.concat per)); [|assumption].
      apply (turns_calls env payload
               (fun call => is_tracked_list call = false)
               (fun c0 => match enableOrgLevel env as b
                            return is_tracked_list
                                     (if b
                                      then CreateRegistrationTokenForOrg c0
                                             (repositoryOwner payload)
                                      else CreateRegistrationTokenForRepo c0
                                             (repositoryOwner payload)
                                             (repositoryName payload))
                                   = false
                          with true => eq_refl | false => eq_refl end)
               (fun _ _ _ _ => eq_refl) w c cur runnerTypes r' per ts');
        [intros x Hx; exact Hx | assumption].
Qed.

Lemma filter_none {A} (f : A -> bool) l :
  Forall (fun x => f x = false) l -> filter f l = [].
Proof.
  induction 1 as [|x l Hx _ IH]; simpl; [reflexivity|]. now rewrite Hx.
Qed.

(** What an invocation has served: nothing off the path of the loop; on
    it, what the loop has served. *)
Lemma invocation_served w env payload r evs ts ls :
  invocation w env payload r evs ts ls ->
  (created evs = [] /\ ts = [] /\
   filter (fun ev => is_token_call (call ev)) evs = []) \/
  (exists currentRunners n m,
     In (listRunnersEvent env payload (RRunners currentRunners)) evs /\
     created evs =
       firstn n (map snd (filter (below_ceiling currentRunners) runnerTypes)) /\
     map task_runnerType ts =
       firstn m (map fst (filter (below_ceiling currentRunners) runnerTypes)) /\
     List.length ts = m /\ n <= m <= S n /\
     List.length (filter (fun ev => is_token_call (call ev)) evs) = m /\
     (r = Ok tt ->
      n = List.length (filter (below_ceiling currentRunners) runnerTypes) /\
      m = n)).
Proof.
  destruct (phases_not_fleet env payload
              (fun ev => is_create_runner (call ev) = false)) as (Hlc & Hcc).
  { intros x Hx. unfold fleet_or_provisioning in Hx.
    now apply orb_false_iff in Hx as (_ & Hx). }
  destruct (phases_not_fleet env payload
              (fun ev => is_token_call (call ev) = false)) as (Hlt & Hct).
  { intros x Hx. unfold fleet_or_provisioning in Hx.
    apply orb_false_iff in Hx as (Hx & _).
    now apply orb_false_iff in Hx as (_ & Hx). }
  intros [err li Hi | resolved li err lc Hi Hc | resolved li c s lc Hi Hc _
          | resolved li c lc err Hi Hc
          | resolved li c lc cur r' per ts' Hi Hc Hturns].
  - left. repeat split; [apply created_none | apply filter_none]; eauto.
  - left. rewrite created_app, filter_app.
    rewrite (created_none li), (created_none lc),
      (filter_none _ li), (filter_none _ lc); eauto.
  - left. rewrite created_app, filter_app.
    rewrite (created_none li), (created_none lc),
      (filter_none _ li), (filter_none _ lc); eauto.
  - left. rewrite !created_app, !filter_app.
    rewrite (created_none li), (created_none lc),
      (filter_none _ li), (filter_none _ lc); eauto.
  - right. destruct (turns_served w env payload c cur runnerTypes r' per ts'
                       Hturns)
      as (n & m & Hcr & Hts & Hlen & Hnm & Htok & Hok).
    exists cur, n, m. split.
    { apply in_or_app. right. apply in_or_app. right. now left. }
    rewrite !created_app, !filter_app.
    rewrite (created_none li), (created_none lc),
      (filter_none _ li), (filter_none _ lc); eauto.
    change (listRunnersEvent env payload (RRunners cur) :: List.concat per)
      with ([listRunnersEvent env payload (RRunners cur)] ++ List.concat per).
    rewrite created_app, filter_app.
    assert (Hnone : created [listRunnersEvent env payload (RRunners cur)]
                    = []) by reflexivity.
    assert (Hnot : filter (fun ev => is_token_call (call ev))
                     [listRunnersEvent env payload (RRunners cur)] = [])
      by reflexivity.
    rewrite Hnone, Hnot. cbn [app].
    repeat split; try assumption; try lia;
      match goal with Hr : _ = Ok tt |- _ => destruct (Hok Hr); lia end.
Qed.

(** X6.  Once the inventory has answered, the runner types below their
    ceiling are served in the order of the table, as far as the invocation
    gets: runners are created for the first [n] of them, admission checks
    are started for the first [m], where [m] is [n], or [n + 1] when a call
    of the next runner type was rejected.  An invocation that returns has
    served them all. *)
Theorem runner_types_are_served_in_order w env src payload h r e environment
    repoName currentRunners :
  scaleUp w env src payload h = (r, e) ->
  In {| call := ListRunners environment repoName;
        response := RRunners currentRunners |} (events e) ->
  exists n m,
    created (events e) =
      firstn n (map snd (filter (below_ceiling currentRunners) runnerTypes)) /\
    map task_runnerType (tasks e) =
      firstn m (map fst (filter (below_ceiling currentRunners) runnerTypes)) /\
    n <= m <= S n /\
    (r = Ok tt ->
     created (events e) =
       map snd (filter (below_ceiling currentRunners) runnerTypes) /\
     map task_runnerType (tasks e) =
       map fst (filter (below_ceiling currentRunners) runnerTypes)).
Proof.
  intros H Hin.
  apply scaleUp_cases in H as [(_ & _ & ->) | H]; [destruct Hin|].
  destruct (invocation_listed w env payload r (events e) (tasks e) (logs e)
              environment repoName currentRunners H Hin)
    as (resolved & li & c & lc & per & Hi & Hc & Hturns & Hev & _).
  destruct (turns_served w env payload c currentRunners runnerTypes r per
              (tasks e) Hturns)
    as (n & m & Hcr & Hts & Hlen & Hnm & Htok & Hok).
  assert (Hcreated : created (events e) = created (List.concat per)).
  { destruct (phases_not_fleet env payload
                (fun ev => is_create_runner (call ev) = false)) as (Hlc & Hcc).
    { intros x Hx. unfold fleet_or_provisioning in Hx.
      now apply orb_false_iff in Hx as (_ & Hx). }
    rewrite Hev, !created_app.
    rewrite (created_none li), (created_none lc); eauto. }
  exists n, m. rewrite Hcreated. repeat split; try assumption; try lia.
  - destruct (Hok H0) as (Hn & _). rewrite Hcr, Hn, <- (length_map snd).
    apply firstn_all.
  - destruct (Hok H0) as (Hn & Hm). rewrite Hts, Hm, Hn, <- (length_map fst).
    apply firstn_all.
Qed.

Lemma runner_types_are_served_in_order_witness :
  exists n m,
    created (events (snd (scaleUp
       (mock_refusing 9 five_tracked (three_live true)) env_default
       "aws:sqs" (acme_widgets 0) []))) =
      firstn n (map snd (filter (below_ceiling five_tracked) runnerTypes)) /\
    map task_runnerType (tasks (snd (scaleUp
       (mock_refusing 9 five_tracked (three_live true)) env_default
       "aws:sqs" (acme_widgets 0) []))) =
      firstn m (map fst (filter (below_ceiling five_tracked) runnerTypes)) /\
    n <= m <= S n /\
    (fst (scaleUp (mock_refusing 9 five_tracked (three_live true))
            env_default "aws:sqs" (acme_widgets 0) []) = Ok tt ->
     created (events (snd (scaleUp
        (mock_refusing 9 five_tracked (three_live true)) env_default
        "aws:sqs" (acme_widgets 0) []))) =
       map snd (filter (below_ceiling five_tracked) runnerTypes) /\
     map task_runnerType (tasks (snd (scaleUp
        (mock_refusing 9 five_tracked (three_live true)) env_default
        "aws:sqs" (acme_widgets 0) []))) =
       map fst (filter (below_ceiling five_tracked) runnerTypes)).
Proof.
  apply (runner_types_are_served_in_order
           (mock_refusing 9 five_tracked (three_live true)) env_default
           "aws:sqs" (acme_widgets 0) [] _ _ (Some "prod") None five_tracked
           (surjective_pairing _)).
  vm_compute. do 6 right. left. reflexivity.
Defined.

(** X7.  No invocation creates two runners of one runner type, and every
    runner created is of a runner type of the table. *)
Theorem at_most_one_runner_per_type w env src payload h :
  NoDup (created (events (snd (scaleUp w env src payload h)))) /\
  incl (created (events (snd (scaleUp w env src payload h))))
       (map snd runnerTypes).
Proof.
  destruct (scaleUp w env src payload h) as [r e] eqn:H. simpl.
  apply scaleUp_cases in H as [(_ & _ & ->) | H].
  { split; [constructor | intros x []]. }
  apply invocation_served in H
    as [(-> & _) | (cur & n & m & _ & -> & _)].
  { split; [constructor | intros x []]. }
  split.
  - apply NoDup_firstn, NoDup_map_filter, runnerTypes_distinct.
  - intros x Hx. apply incl_firstn in Hx.
    apply in_map_iff in Hx as (entry & <- & Hx).
    apply filter_In in Hx as (Hx & _). exact (in_map snd _ _ Hx).
Qed.

(** X8.  Every admission check that is started is followed by a call for a
    registration token, whatever the check finds: an invocation has as many
    admission checks as calls for a registration token, at most one for a
    runner type, and none for a runner type that is not in the table. *)
Theorem every_admission_check_asks_for_a_token w env src payload h :
  List.length (tasks (snd (scaleUp w env src payload h))) =
    List.length (filter (fun ev => is_token_call (call ev))
                   (events (snd (scaleUp w env src payload h)))) /\
  NoDup (map task_runnerType (tasks (snd (scaleUp w env src payload h)))) /\
  incl (map task_runnerType (tasks (snd (scaleUp w env src payload h))))
       (map fst runnerTypes).
Proof.
  destruct (scaleUp w env src payload h) as [r e] eqn:H. simpl.
  apply scaleUp_cases in H as [(_ & _ & ->) | H].
  { repeat split; [constructor | intros x []]. }
  apply invocation_served in H
    as [(_ & -> & ->) | (cur & n & m & _ & _ & Hts & Hlen & _ & Htok & _)].
  { repeat split; [constructor | intros x []]. }
  rewrite Hts, Hlen, Htok. repeat split.
  - apply NoDup_firstn, NoDup_map_filter, runnerTypes_keys_distinct.
  - intros x Hx. apply incl_firstn in Hx.
    apply in_map_iff in Hx as (entry & <- & Hx).
    apply filter_In in Hx as (Hx & _). exact (in_map fst _ _ Hx).
Qed.

(* ================================================================== *)
(** ** The log, the first call, the admission checks *)

Lemma runners_line_not_ceiling_line env payload currentRunners :
  runners_line env payload currentRunners <> ceiling_line.
Proof.
  unfold runners_line, ceiling_line.
  destruct (enableOrgLevel env); simpl; discriminate.
Qed.

(** X9.  The line of the branch [else] of the admission test is never
    logged, neither by an invocation nor by its admission checks: what an
    invocation logs is nothing, or the one line that counts the runners the
    inventory answered. *)
Theorem ceiling_line_is_never_logged w env src payload h :
  ~ In ceiling_line (logs (snd (scaleUp w env src payload h))) /\
  Forall (fun t => ~ In ceiling_line (task_logs t))
    (tasks (snd (scaleUp w env src payload h))) /\
  (logs (snd (scaleUp w env src payload h)) = [] \/
   exists currentRunners,
     logs (snd (scaleUp w env src payload h)) =
       [runners_line env payload currentRunners] /\
     In (listRunnersEvent env payload (RRunners currentRunners))
        (events (snd (scaleUp w env src payload h)))).
Proof.
  destruct (scaleUp w env src payload h) as [r e] eqn:H. simpl.
  apply scaleUp_cases in H as [(_ & _ & ->) | H].
  { simpl. repeat split; [intros [] | constructor | now left]. }
  split; [|split].
  - destruct H; simpl; try tauto.
    intros [Heq | []]. now apply runners_line_not_ceiling_line in Heq.
  - apply invocation_tasks in H. eapply Forall_impl; [|exact H]. simpl.
    intros t ((_ & _ & _ & _ & h' & Hrun) & _).
    apply allRunnersBusy_shape in Hrun
      as (_ & [(err & _ & Hl & _) | [(c & err & _ & Hl & _)
                                     | (c & l & _ & Hl & _)]]);
      simpl in Hl; rewrite Hl; simpl; try tauto.
    intros [Heq | []]. unfold found_line, ceiling_line in Heq. discriminate.
  - destruct H; try now left. right.
    exists currentRunners. split; [reflexivity|].
    apply in_or_app. right. apply in_or_app. right. now left.
Qed.

(** X10.  The installation id of the message, when it has one, is used as
    it is: the first call of the invocation is the authentication as this
    installation, and no call authenticates as app. *)
Theorem installation_id_is_used_as_is w env payload h r e :
  scaleUp w env "aws:sqs" payload h = (r, e) ->
  installationId payload <> 0%Z ->
  (exists answer rest,
     events e =
       installationAuthEvent env (installationId payload) answer :: rest) /\
  Forall (fun ev => forall authType url,
            call ev <> CreateGithubAuth None authType url) (events e).
Proof.
  intros H Hid. split.
  - apply scaleUp_invocation in H.
    assert (Hnone : forall r0 li, lookup_phase env payload r0 li ->
              r0 = Ok (installationId payload) /\ li = []).
    { intros r0 li []; try contradiction. now split. }
    destruct H as [err li Hi | resolved li err lc Hi Hc
                   | resolved li c s lc Hi Hc _
                   | resolved li c lc err Hi Hc
                   | resolved li c lc cur r' per ts' Hi Hc Hturns];
      destruct (Hnone _ _ Hi) as (Hr & ->); try discriminate;
      injection Hr as ->; inversion Hc; subst; simpl;
      eexists; eexists; reflexivity.
  - apply scaleUp_invocation in H.
    assert (Hnone : forall r0 li, lookup_phase env payload r0 li ->
              r0 = Ok (installationId payload) /\ li = []).
    { intros r0 li []; try contradiction. now split. }
    assert (Hclient : forall resolved r0 lc,
              client_phase env payload resolved r0 lc ->
              Forall (fun ev => forall authType url,
                        call ev <> CreateGithubAuth None authType url) lc).
    { intros resolved r0 lc []; repeat constructor; simpl; discriminate. }
    destruct H as [err li Hi | resolved li err lc Hi Hc
                   | resolved li c s lc Hi Hc _
                   | resolved li c lc err Hi Hc
                   | resolved li c lc cur r' per ts' Hi Hc Hturns];
      destruct (Hnone _ _ Hi) as (Hr & ->); try discriminate; simpl.
    + eauto.
    + eauto.
    + apply Forall_app. split; [eauto|]. repeat constructor. discriminate.
    + apply Forall_app. split; [eauto|]. constructor; [discriminate|].
      apply (turns_calls env payload
               (fun call => forall authType url,
                    call <> CreateGithubAuth None authType url))
        with w c cur runnerTypes r' ts'; try assumption.
      * intros c0 authType url. unfold tokenCall.
        destruct (enableOrgLevel env); discriminate.
      * intros tok k rt _ authType url. discriminate.
      * intros x Hx. exact Hx.
Qed.

Lemma installation_id_is_used_as_is_witness :
  (exists answer rest,
     events (snd (scaleUp (mock "queued" five_tracked (three_live true))
                    env_default "aws:sqs" (acme_widgets 42) [])) =
       installationAuthEvent env_default 42 answer :: rest) /\
  Forall (fun ev => forall authType url,
            call ev <> CreateGithubAuth None authType url)
    (events (snd (scaleUp (mock "queued" five_tracked (three_live true))
                    env_default "aws:sqs" (acme_widgets 42) []))).
Proof.
  apply (installation_id_is_used_as_is
           (mock "queued" five_tracked (three_live true)) env_default
           (acme_widgets 42) [] _ _ (surjective_pairing _)).
  discriminate.
Defined.

(** The runners [runnersWithLabel] keeps. *)
Lemma runnersWithLabel_In k ghRunners x :
  In x (runnersWithLabel k ghRunners) <->
  In x ghRunners /\ has_label k x /\ status x <> "offline".
Proof.
  unfold runnersWithLabel, has_label. rewrite filter_In, andb_true_iff,
    existsb_exists, negb_true_iff, String.eqb_neq.
  split.
  - intros (Hin & (y & Hy & Heq) & Hs). apply String.eqb_eq in Heq.
    repeat split; try assumption. now exists y.
  - intros (Hin & (y & Hy & Heq) & Hs). repeat split; try assumption.
    exists y. split; [assumption|]. now apply String.eqb_eq.
Qed.

(** X11.  The verdict of the admission check: when [allRunnersBusy]
    resolves, on the live runners it was answered, it resolves to [true]
    exactly when every runner that carries the label of the runner type and
    is not offline is busy; runners that are offline, or of other labels,
    have no say. *)
Theorem allRunnersBusy_verdict w k org repo orgLevel h b e client ghRunners :
  allRunnersBusy w k org repo orgLevel h = (Ok b, e) ->
  In {| call := ListGithubRunners client org repo orgLevel;
        response := RGhRunners ghRunners |} (events e) ->
  (b = true <->
   forall x, In x ghRunners -> has_label k x -> status x <> "offline" ->
             busy x = true).
Proof.
  intros H Hin. apply allRunnersBusy_shape in H
    as (_ & [(err & [=] & _) | [(c & err & [=] & _)
                                | (c & l & [= ->] & _ & Hev)]]).
  rewrite Hev in Hin. destruct Hin as [[=] | [[= _ <-] | []]].
  rewrite forallb_forall. split.
  - intros Hall x Hx Hlabel Hs. apply Hall.
    now apply runnersWithLabel_In.
  - intros Hall x Hx. apply runnersWithLabel_In in Hx as (Hx & Hlabel & Hs).
    now apply Hall.
Qed.

Lemma allRunnersBusy_verdict_witness :
  false = true <->
  forall x, In x (three_live false) -> has_label "linux.2xlarge" x ->
            status x <> "offline" -> busy x = true.
Proof.
  apply (allRunnersBusy_verdict (mock "queued" [] (three_live false))
           "linux.2xlarge" "acme" "widgets" true [] false
           (snd (allRunnersBusy (mock "queued" [] (three_live false))
                   "linux.2xlarge" "acme" "widgets" true []))
           (Client 3) (three_live false)).
  - vm_compute. reflexivity.
  - vm_compute. right. left. reflexivity.
Defined.

(** X12.  The admission checks of an invocation only look: each makes at
    most two calls, for the client and for the list of the live runners and
    nothing else, rejects exactly when its last call was rejected, and logs
    its one line exactly when it resolves, to the verdict on the runners
    that the line counts. *)
Theorem admission_checks_only_look w env src payload h :
  Forall (fun t =>
            List.length (task_events t) <= 2 /\
            Forall (fun ev => is_live_list (call ev) = true) (task_events t) /\
            surfaced (task_settled t) (task_events t) /\
            (match task_settled t with
             | Ok b =>
                 exists ghRunners,
                   task_logs t = [found_line (task_runnerType t) ghRunners] /\
                   b = forallb busy
                         (runnersWithLabel (task_runnerType t) ghRunners)
             | Throw _ => task_logs t = []
             end))
    (tasks (snd (scaleUp w env src payload h))).
Proof.
  destruct (scaleUp w env src payload h) as [r e] eqn:H. simpl.
  apply scaleUp_cases in H as [(_ & _ & ->) | H]; [constructor|].
  apply invocation_tasks in H. eapply Forall_impl; [|exact H]. simpl.
  intros t ((_ & _ & _ & _ & h' & Hrun) & _).
  apply allRunnersBusy_shape in Hrun
    as (_ & [(err & -> & Hl & Hev) | [(c & err & -> & Hl & Hev)
                                      | (c & l & -> & Hl & Hev)]]);
    simpl in Hl, Hev; rewrite Hev; simpl; repeat split; try lia;
    try (repeat constructor; fail); try assumption.
  - now exists [], (CreateGitHubClientForRunner (repositoryOwner payload)
                      (repositoryName payload) (enableOrgLevel env)).
  - eexists [_], _. split; [reflexivity | all_answered].
  - all_answered.
  - now exists l.
Qed.

(* ================================================================== *)
(** ** The live runners have no say *)

Lemma alike_same {A} (x y : Outcome A * Effects) : x = y -> alike eq x y.
Proof.
  intros ->. unfold alike. destruct (fst y); now repeat split.
Qed.

Lemma alike_bind {A B} (R : A -> A -> Prop) (S : B -> B -> Prop)
    (m1 m2 : M A) (f1 f2 : A -> M B) h :
  alike R (m1 h) (m2 h) ->
  (forall a b h', R a b -> alike S (f1 a h') (f2 b h')) ->
  alike S (bind m1 f1 h) (bind m2 f2 h).
Proof.
  unfold bind, alike.
  destruct (m1 h) as [[a | x] e1], (m2 h) as [[b | y] e2]; simpl;
    intros (Hr & Hev & Hl & Ht) Hf; try contradiction.
  - specialize (Hf a b (h ++ events e1) Hr). rewrite <- Hev.
    destruct (f1 a (h ++ events e1)) as [r1 e1'],
             (f2 b (h ++ events e1)) as [r2 e2'].
    simpl in *. destruct Hf as (Hr' & Hev' & Hl' & Ht').
    rewrite !map_app. repeat split; congruence.
  - now repeat split.
Qed.

Section Live.

Context (w1 w2 : World) (env : ProcessEnv) (payload : ActionRequestMessage).

Hypothesis Hsame : same_but_live w1 w2.

Lemma scaleUp_runnerType_alike c currentRunners k rt h :
  alike eq (scaleUp_runnerType w1 env payload c currentRunners k rt h)
           (scaleUp_runnerType w2 env payload c currentRunners k rt h).
Proof.
  destruct Hsame as (_ & _ & _ & _ & _ & _ & Horg & Hrepo & Hcreate).
  unfold scaleUp_runnerType. cbv zeta.
  destruct (currentRunnerCount currentRunners k <? max_available rt)%Z;
    [|now apply alike_same].
  apply (alike_bind (fun _ _ => True)).
  - destruct (allRunnersBusy_promise_run w1 k (repositoryOwner payload)
                (repositoryName payload) (enableOrgLevel env) h)
      as (t1 & -> & Hk1 & _).
    destruct (allRunnersBusy_promise_run w2 k (repositoryOwner payload)
                (repositoryName payload) (enableOrgLevel env) h)
      as (t2 & -> & Hk2 & _).
    unfold alike. simpl. rewrite Hk1, Hk2. now repeat split.
  - intros p1 p2 h' _. unfold ToBoolean. apply alike_same.
    unfold createRegistrationTokenForOrg, createRegistrationTokenForRepo,
      createRunner.
    now rewrite Horg, Hrepo, Hcreate.
Qed.

Lemma forIn_alike c currentRunners dict : forall h,
  alike eq (forIn dict (scaleUp_runnerType w1 env payload c currentRunners) h)
           (forIn dict (scaleUp_runnerType w2 env payload c currentRunners) h).
Proof.
  induction dict as [|[k rt] rest IH]; intros h; simpl.
  - now apply alike_same.
  - apply (alike_bind eq); [apply scaleUp_runnerType_alike|].
    intros a b h' _. apply IH.
Qed.

Lemma scaleUp_alike src h :
  alike eq (scaleUp w1 env src payload h) (scaleUp w2 env src payload h).
Proof.
  destruct Hsame as (Hauth & Hclient & Hgo & Hgr & Hcheck & Hlist & _).
  unfold scaleUp. destruct (negb (src =? "aws:sqs"));
    [now apply alike_same|].
  cbv zeta. apply (alike_bind eq).
  { apply alike_same.
    unfold createGithubAuth, createOctoClient, getOrgInstallation,
      getRepoInstallation.
    now rewrite Hauth, Hclient, Hgo, Hgr. }
  intros resolved ? h1 <-. apply (alike_bind eq).
  { apply alike_same. unfold createGithubAuth. now rewrite Hauth. }
  intros ghAuth ? h2 <-. apply (alike_bind eq).
  { apply alike_same. unfold createOctoClient. now rewrite Hclient. }
  intros c ? h3 <-. apply (alike_bind eq).
  { apply alike_same. unfold checks_get. now rewrite Hcheck. }
  intros s ? h4 <-. destruct (s =? "queued"); [|now apply alike_same].
  unfold scaleUp_queued. cbv zeta. apply (alike_bind eq).
  { apply alike_same. unfold listRunners. now rewrite Hlist. }
  intros cur ? h5 <-. apply (alike_bind eq); [now apply alike_same|].
  intros u ? h6 _. apply forIn_alike.
Qed.

End Live.

(** X13.  The live runners have no say in what an invocation does: with
    collaborators that differ at most in the client of the admission checks
    and in the live runners they list, [scaleUp] has the same outcome, makes
    the same calls and gets the same answers, logs the same, and starts
    admission checks for the same runner types. *)
Theorem live_runners_have_no_say w1 w2 env src payload h :
  same_but_live w1 w2 ->
  same_main (scaleUp w1 env src payload h) (scaleUp w2 env src payload h).
Proof.
  intros Hsame.
  destruct (scaleUp_alike w1 w2 env payload Hsame src h)
    as (Hr & Hev & Hl & Ht).
  unfold same_main. repeat split; try assumption.
  destruct (fst (scaleUp w1 env src payload h)) as [[] | x],
           (fst (scaleUp w2 env src payload h)) as [[] | y];
    try contradiction; congruence.
Qed.

Lemma live_runners_have_no_say_witness :
  same_main (run_scenario true) (run_scenario false).
Proof.
  apply (live_runners_have_no_say
           (mock "queued" five_tracked (three_live true))
           (mock "queued" five_tracked (three_live false))
           env_default "aws:sqs" (acme_widgets 0) []).
  unfold same_but_live. repeat split; reflexivity.
Defined.

(* ================================================================== *)
(** ** Bounds *)

Lemma turns_bounded w env payload c currentRunners dict r per ts :
  turns w env payload c currentRunners dict r per ts ->
  List.length (List.concat per) <= 2 * List.length dict /\
  List.length ts <= List.length dict.
Proof.
  induction 1 as [| k rt rest r per ts Hb _ IH | k rt rest err t Hb Ht
                  | k rt rest tok err t Hb Ht
                  | k rt rest tok t r per ts Hb Ht _ IH]; simpl; lia.
Qed.

(** X14.  An invocation is bounded by the table: it makes at most seven
    calls besides two for each runner type, and starts at most one
    admission check for each runner type. *)
Theorem invocation_is_bounded w env src payload h :
  List.length (events (snd (scaleUp w env src payload h))) <=
    7 + 2 * List.length runnerTypes /\
  List.length (tasks (snd (scaleUp w env src payload h))) <=
    List.length runnerTypes.
Proof.
  destruct (scaleUp w env src payload h) as [r e] eqn:H. simpl snd.
  apply scaleUp_cases in H as [(_ & _ & ->) | H]; [simpl; lia|].
  assert (Hl : forall r0 li, lookup_phase env payload r0 li ->
                             List.length li <= 3).
  { intros r0 li []; simpl; lia. }
  assert (Hc : forall resolved r0 lc,
             client_phase env payload resolved r0 lc -> List.length lc <= 3).
  { intros resolved r0 lc []; simpl; lia. }
  destruct H as [err li Hi | resolved li err lc Hi Hc'
                 | resolved li c s lc Hi Hc' _
                 | resolved li c lc err Hi Hc'
                 | resolved li c lc cur r' per ts' Hi Hc' Hturns];
    rewrite ?length_app; simpl List.length;
    try (apply Hl in Hi); try (apply Hc in Hc'); try lia.
  apply turns_bounded in Hturns. simpl in Hturns. lia.
Qed.

(* ================================================================== *)
(** ** The counts of the tracked runners *)




